(** * secretsync: the reconciliation engine, embedded and verified

    A shallow embedding of the decision logic of the tool: the inline
    pattern test of [Config.shouldExclude] and [BasePlatform.isProtectedVar],
    [Config.filterVars], the configuration and its defaults, the prompts,
    the Vercel provider, and the class [Syncer] as its module ships.

    Conventions of the embedding.
    - A JavaScript string is a [string]: a sequence of code units, here
      restricted to the range 0..255.
    - A plain object used as a dictionary of strings is the list of its own
      enumerable properties in enumeration order: the names that are array
      indices first, in ascending order, then the other names in the order
      they were written.  A [Set] is the list of its members in insertion
      order.
    - A computation that may raise is a [completion]; code that talks to
      the shell, the terminal or the provider runs in the monad [M], which
      threads the trace of events of the run.
    - Console output carries no decision and is left out of the trace.
    - A module is parsed before any of it runs.  The text of core/syncer.js
      has an early error, so a call of a method of [Syncer] is modelled as
      what it is as shipped: the [SyntaxError] of loading the module, in
      front of the body of the method. *)

From stdpp Require Import base list strings pretty gmap sets sorting.
From Stdlib Require Import Ascii String Bool Arith NArith Lia.

Open Scope string_scope.
Open Scope list_scope.

(** ** Completions: normal return, raised error, or outside the model *)

Inductive error :=
| SyntaxError
| TypeError
| Error (message : string).

Inductive completion (A : Type) :=
| Return (v : A)
| Throw (e : error)
| NotModelled.

Arguments Return {A} v.
Arguments Throw {A} e.
Arguments NotModelled {A}.

#[global] Instance completion_ret : MRet completion := fun A v => Return v.

#[global] Instance completion_bind : MBind completion := fun A B k c =>
  match c with
  | Return v => k v
  | Throw e => Throw e
  | NotModelled => NotModelled
  end.

(** ** The JavaScript built-ins the sources call *)

Module JS.

(** [s.includes(c)] for a one-character needle. *)
Fixpoint includes (s : string) (c : ascii) : bool :=
  match s with
  | EmptyString => false
  | String d s' => Ascii.eqb d c || includes s' c
  end.

(** [s.replace(/\*/g, '.*')]: every star becomes dot-star. *)
Fixpoint replace_stars (s : string) : string :=
  match s with
  | EmptyString => EmptyString
  | String c s' =>
      if Ascii.eqb c "*" then String "." (String "*" (replace_stars s'))
      else String c (replace_stars s')
  end.

(** [s.startsWith(p)]. *)
Fixpoint startsWith (s p : string) : bool :=
  match p, s with
  | EmptyString, _ => true
  | String _ _, EmptyString => false
  | String a p', String b s' => Ascii.eqb a b && startsWith s' p'
  end.

(** [arr.some(f)]: the callback runs left to right and the scan stops at
    the first element for which it answers true; an error raised by the
    callback leaves the scan at once. *)
Fixpoint some {A} (f : A -> completion bool) (l : list A) : completion bool :=
  match l with
  | [] => Return false
  | x :: l' =>
      match f x with
      | Return true => Return true
      | Return false => some f l'
      | Throw e => Throw e
      | NotModelled => NotModelled
      end
  end.

(** [arr.filter(f)] with a callback that may raise. *)
Fixpoint filter {A} (f : A -> completion bool) (l : list A) : completion (list A) :=
  match l with
  | [] => Return []
  | x :: l' =>
      match f x with
      | Return b =>
          match filter f l' with
          | Return r => Return (if b then x :: r else r)
          | Throw e => Throw e
          | NotModelled => NotModelled
          end
      | Throw e => Throw e
      | NotModelled => NotModelled
      end
  end.

(** [new Set(iterable)] and [set.add(x)]: insertion order, first
    occurrence kept. *)
Definition Set_has (s : list string) (x : string) : bool :=
  existsb (String.eqb x) s.

Definition Set_add (s : list string) (x : string) : list string :=
  if Set_has s x then s else s ++ [x].

Definition Set_from (l : list string) : list string :=
  fold_left Set_add l [].

(** White space in the sense of [trim] and of the class [\s], among the
    code units below 256. *)
Definition is_whitespace (c : ascii) : bool :=
  Ascii.eqb c "009" || Ascii.eqb c "010" || Ascii.eqb c "011" ||
  Ascii.eqb c "012" || Ascii.eqb c "013" || Ascii.eqb c " " || Ascii.eqb c "160".

Fixpoint trimStart (s : string) : string :=
  match s with
  | EmptyString => EmptyString
  | String c s' => if is_whitespace c then trimStart s' else s
  end.

Fixpoint trimEnd (s : string) : string :=
  match s with
  | EmptyString => EmptyString
  | String c s' =>
      let r := trimEnd s' in
      if is_whitespace c && String.eqb r "" then EmptyString else String c r
  end.

Definition trim (s : string) : string := trimEnd (trimStart s).

(** [s.split('\n')]. *)
Fixpoint split_lines (s : string) : list string :=
  match s with
  | EmptyString => [EmptyString]
  | String c s' =>
      if Ascii.eqb c "010" then EmptyString :: split_lines s'
      else
        match split_lines s' with
        | line :: lines => String c line :: lines
        | [] => [String c EmptyString]
        end
  end.

(** [s.split(/\s+/)[0]]: what stands before the first run of white space. *)
Fixpoint first_field (s : string) : string :=
  match s with
  | EmptyString => EmptyString
  | String c s' => if is_whitespace c then EmptyString else String c (first_field s')
  end.

(** [c.toLowerCase()] on the code units below 256. *)
Definition lower_char (c : ascii) : ascii :=
  let n := nat_of_ascii c in
  if (Nat.leb 65 n && Nat.leb n 90) ||
     (Nat.leb 192 n && Nat.leb n 222 && negb (Nat.eqb n 215))
  then ascii_of_nat (n + 32) else c.

Fixpoint toLowerCase (s : string) : string :=
  match s with
  | EmptyString => EmptyString
  | String c s' => String (lower_char c) (toLowerCase s')
  end.

(** [arr.join(sep)]. *)
Fixpoint join (sep : string) (l : list string) : string :=
  match l with
  | [] => EmptyString
  | [x] => x
  | x :: l' => x ++ sep ++ join sep l'
  end.

(** [String(v)] for a value that is a string or [undefined]. *)
Definition to_string (v : option string) : string :=
  match v with Some s => s | None => "undefined" end.

End JS.

(** ** Regular expressions: the fragment the pattern test can be followed in

    [new RegExp(source)] is modelled for sources of the shape [^ body $]
    whose body is made of pattern characters, the dot, and the star
    quantifier.  Quantifier characters are followed exactly, so that a
    quantifier with nothing to repeat is the [SyntaxError] the constructor
    raises.  Any other syntax character (groups, classes, escapes,
    alternation, braces, inner anchors, the quantifiers [+] and [?] after an
    atom) ends the scan with [NotModelled]. *)

Module RegExp.

Inductive atom :=
| Char (c : ascii)     (* a pattern character: matches itself *)
| Any.                 (* the dot: any character but a line terminator *)

Inductive term :=
| One (a : atom)
| Star (a : atom).     (* greedy star *)

Definition t := list term.

Definition is_quantifier_char (c : ascii) : bool :=
  Ascii.eqb c "*" || Ascii.eqb c "+" || Ascii.eqb c "?".

(** The syntax characters of the pattern grammar, the dot and the
    quantifier characters apart. *)
Definition is_other_syntax_char (c : ascii) : bool :=
  Ascii.eqb c "^" || Ascii.eqb c "$" || Ascii.eqb c "\" ||
  Ascii.eqb c "(" || Ascii.eqb c ")" || Ascii.eqb c "[" || Ascii.eqb c "]" ||
  Ascii.eqb c "{" || Ascii.eqb c "}" || Ascii.eqb c "|".

Definition atom_of (c : ascii) : option atom :=
  if Ascii.eqb c "." then Some Any
  else if is_other_syntax_char c then None
  else Some (Char c).

Definition push_term (x : term) (r : completion t) : completion t :=
  match r with
  | Return ts => Return (x :: ts)
  | Throw e => Throw e
  | NotModelled => NotModelled
  end.

(** The scan of the body, left to right, up to the closing [$]. *)
Fixpoint terms (src : string) : completion t :=
  match src with
  | EmptyString => NotModelled
  | String c rest =>
      if Ascii.eqb c "$" && String.eqb rest "" then Return []
      else if is_quantifier_char c then Throw SyntaxError
      else
        match atom_of c with
        | None => NotModelled
        | Some a =>
            match rest with
            | String q rest' =>
                if Ascii.eqb q "*" then
                  match rest' with
                  | String l _ =>
                      if Ascii.eqb l "?" then NotModelled
                      else push_term (Star a) (terms rest')
                  | EmptyString => push_term (Star a) (terms rest')
                  end
                else if Ascii.eqb q "+" || Ascii.eqb q "?" then NotModelled
                else push_term (One a) (terms rest)
            | EmptyString => push_term (One a) (terms rest)
            end
        end
  end.

(** [new RegExp(source)], no flags. *)
Definition new (source : string) : completion t :=
  match source with
  | String c body => if Ascii.eqb c "^" then terms body else NotModelled
  | EmptyString => NotModelled
  end.

Definition is_line_terminator (c : ascii) : bool :=
  Ascii.eqb c "010" || Ascii.eqb c "013".

Definition atom_matches (a : atom) (c : ascii) : bool :=
  match a with
  | Char d => Ascii.eqb d c
  | Any => negb (is_line_terminator c)
  end.

(** Backtracking match of the terms against the rest of the input; the
    empty list of terms is the closing [$].  A star first tries to take one
    more character and falls back on the continuation. *)
Fixpoint match_terms (ts : t) : string -> bool :=
  match ts with
  | [] => fun s => String.eqb s ""
  | One a :: ts' =>
      fun s =>
        match s with
        | EmptyString => false
        | String c s' => atom_matches a c && match_terms ts' s'
        end
  | Star a :: ts' =>
      fix star (s : string) : bool :=
        match s with
        | EmptyString => match_terms ts' EmptyString
        | String c s' => (atom_matches a c && star s') || match_terms ts' s
        end
  end.

(** [regex.test(s)]: the leading [^] pins the match to the start. *)
Definition test (r : t) (s : string) : bool := match_terms r s.

(** The rest of the pattern language is left to the engine of the host.
    Of a source the scan above does not follow it is only known that
    [new RegExp] either raises [SyntaxError] or builds a regular
    expression, and that the expression built, which carries no flag and so
    keeps no state between two tests, answers [test] as a function of the
    string tested. *)
Inductive compiled :=
| Rejected
| Compiled (test : string -> bool).

Definition engine := string -> compiled.

End RegExp.

(** ** The pattern test

    The same four lines occur in [Config.shouldExclude] (twice) and in
    [BasePlatform.isProtectedVar]:
    [if (pattern.includes('*')) { regex = new RegExp('^' +
    pattern.replace(/\*/g, '.*') + '$'); return regex.test(key) }
    return key === pattern]. *)

Definition patternTest (key pattern : string) : completion bool :=
  if JS.includes pattern "*" then
    regex ← RegExp.new ("^" ++ JS.replace_stars pattern ++ "$");
    Return (RegExp.test regex key)
  else Return (String.eqb key pattern).

(** The same test with the engine of the host behind the fragment: where
    the scan of the source gives up, the host's engine is asked.  This is
    the test as [Config.shouldExclude] runs it, on patterns the user writes;
    the patterns of the platforms are all within the fragment. *)
Definition patternTest_in (host : RegExp.engine) (key pattern : string)
  : completion bool :=
  match patternTest key pattern with
  | NotModelled =>
      match host ("^" +:+ JS.replace_stars pattern +:+ "$") with
      | RegExp.Rejected => Throw SyntaxError
      | RegExp.Compiled test => Return (test key)
      end
  | answer => answer
  end.

(** ** Plain objects used as dictionaries of strings *)

Module Object.

(** The own enumerable properties, in enumeration order. *)
Definition t := list (string * string).

Definition keys (o : t) : list string := map fst o.

Definition entries (o : t) : list (string * string) := o.

(** [Object.prototype.hasOwnProperty] applied to [o]. *)
Definition has (o : t) (key : string) : bool :=
  existsb (String.eqb key) (keys o).

(** [o.hasOwnProperty(key)]: the method is looked up on [o] itself first.
    An own property of that name holds a string, and calling a string
    raises [TypeError]; otherwise the method of [Object.prototype] is
    found. *)
Definition hasOwnProperty (o : t) (key : string) : completion bool :=
  if has o "hasOwnProperty" then Throw TypeError else Return (has o key).

(** The value of an own property. *)
Fixpoint own (o : t) (key : string) : option string :=
  match o with
  | [] => None
  | (k, v) :: o' => if String.eqb k key then Some v else own o' key
  end.

(** The names every object literal inherits from [Object.prototype]. *)
Definition prototype_names : list string :=
  ["constructor"; "__defineGetter__"; "__defineSetter__"; "hasOwnProperty";
   "__lookupGetter__"; "__lookupSetter__"; "isPrototypeOf";
   "propertyIsEnumerable"; "toString"; "valueOf"; "__proto__"; "toLocaleString"].

(** [o[key]], read as a string or as [undefined] ([None]).  An own property
    gives its value.  A name that is no own property gives [undefined],
    unless [Object.prototype] has it: what is read then is no string, and
    the model does not follow it. *)
Definition get (o : t) (key : string) : completion (option string) :=
  match own o key with
  | Some v => Return (Some v)
  | None =>
      if existsb (String.eqb key) prototype_names then NotModelled else Return None
  end.

(** Array indices: the canonical decimal numerals of the integers from 0
    to 2^32 - 2.  An object enumerates them before its other names. *)
Definition digit (c : ascii) : option N :=
  let n := N_of_ascii c in
  if (48 <=? n)%N && (n <=? 57)%N then Some (n - 48)%N else None.

Fixpoint decimal (s : string) (acc : N) : option N :=
  match s with
  | EmptyString => Some acc
  | String c s' =>
      match digit c with
      | Some d => decimal s' (10 * acc + d)%N
      | None => None
      end
  end.

Definition array_index (key : string) : option N :=
  match key with
  | EmptyString => None
  | String c rest =>
      if Ascii.eqb c "0" && negb (String.eqb rest "") then None
      else
        match decimal key 0 with
        | Some n => if (n <? 4294967295)%N then Some n else None
        | None => None
        end
  end.

(** The value of an existing property changes in place. *)
Fixpoint replace (o : t) (key value : string) : t :=
  match o with
  | [] => []
  | (k, v) :: o' =>
      if String.eqb k key then (k, value) :: o' else (k, v) :: replace o' key value
  end.

(** A new array index goes after the indices that are not above it. *)
Fixpoint insert_index (o : t) (n : N) (key value : string) : t :=
  match o with
  | [] => [(key, value)]
  | (k, v) :: o' =>
      match array_index k with
      | Some m =>
          if (m <=? n)%N then (k, v) :: insert_index o' n key value
          else (key, value) :: o
      | None => (key, value) :: o
      end
  end.

(** [o[key] = value], for an object with the prototype of an object
    literal and a string [value].  An own property takes the new value.
    Otherwise the name [__proto__] finds the setter of [Object.prototype],
    which ignores a value that is no object: no property is created.  Any
    other name becomes a new own property, an array index among the
    indices, another name last. *)
Definition put (o : t) (key value : string) : t :=
  if has o key then replace o key value
  else if String.eqb key "__proto__" then o
  else
    match array_index key with
    | Some n => insert_index o n key value
    | None => o ++ [(key, value)]
    end.

End Object.

(** ** Config (core/config.js) *)

Module Config.

Record environment := { file : string; target : string }.

Record t := {
  platform : string;
  environments : list (string * environment);
  exclude : list string;
  include : list string
}.

Definition getDefaults : t := {|
  platform := "vercel";
  environments :=
    [ ("development", {| file := ".env.local"; target := "development" |});
      ("preview", {| file := ".env.staging"; target := "preview" |});
      ("production", {| file := ".env.production"; target := "production" |}) ];
  exclude := ["VERCEL_*"; "CI"; "NODE_ENV"; "PWD"; "HOME"; "PATH"; "USER"; "SHELL"];
  include := []
|}.

Fixpoint lookup_environment (envs : list (string * environment)) (name : string)
  : option environment :=
  match envs with
  | [] => None
  | (n, e) :: envs' => if String.eqb n name then Some e else lookup_environment envs' name
  end.

Definition getEnvironment (config : t) (name : string) : completion environment :=
  match lookup_environment (environments config) name with
  | Some envConfig => Return envConfig
  | None =>
      Throw (Error ("Unknown environment: " ++ name ++ ". Available: "
                    ++ JS.join ", " (map fst (environments config))))
  end.

Definition getFilePath (config : t) (name : string) : completion string :=
  envConfig ← getEnvironment config name; Return (file envConfig).

Definition getTarget (config : t) (name : string) : completion string :=
  envConfig ← getEnvironment config name; Return (target envConfig).


(** [shouldExclude]; [host] is the regular-expression engine that the two
    copies of the pattern test run on. *)
Definition shouldExclude (host : RegExp.engine) (config : t) (key : string)
  : completion bool :=
  if Nat.ltb 0 (List.length (include config)) then
    shouldInclude ← JS.some (patternTest_in host key) (include config);
    if negb shouldInclude then Return true
    else JS.some (patternTest_in host key) (exclude config)
  else JS.some (patternTest_in host key) (exclude config).

(** The [forEach] of [filterVars] over [Object.entries(envVars)], with its
    two accumulators. *)
Fixpoint filterVars_loop (host : RegExp.engine) (config : t)
    (entries : list (string * string)) (filtered : Object.t) (excluded : list string)
  : completion (Object.t * list string) :=
  match entries with
  | [] => Return (filtered, excluded)
  | (key, value) :: rest =>
      b ← shouldExclude host config key;
      if b : bool then filterVars_loop host config rest filtered (excluded ++ [key])
      else filterVars_loop host config rest (Object.put filtered key value) excluded
  end.

(** [filterVars] returns [filtered]; the array [excluded], which the source
    prints when it is not empty, is returned beside it. *)
Definition filterVars (host : RegExp.engine) (config : t) (envVars : Object.t)
  : completion (Object.t * list string) :=
  filterVars_loop host config (Object.entries envVars) [] [].

(** What a configuration file may export: [None] is a key the file does not
    give.  The environments it gives are complete [{file, target}] objects. *)
Record user := {
  user_platform : option string;
  user_environments : option (list (string * environment));
  user_exclude : option (list string);
  user_include : option (list string)
}.

(** One property written by an object spread: an existing key keeps its
    place and takes the new value, a new key comes last (environment names
    are not array indices, which JavaScript would enumerate first). *)
Fixpoint put_environment (o : list (string * environment)) (name : string)
    (e : environment) : list (string * environment) :=
  match o with
  | [] => [(name, e)]
  | (n, e') :: o' =>
      if String.eqb n name then (n, e) :: o' else (n, e') :: put_environment o' name e
  end.

(** [{...base, ...extra}]. *)
Definition spread_environments (base extra : list (string * environment))
  : list (string * environment) :=
  fold_left (fun o '(name, e) => put_environment o name e) extra base.

Definition mergeWithDefaults (userConfig : user) : t :=
  let defaults := getDefaults in
  {| platform := default (platform defaults) (user_platform userConfig);
     environments :=
       spread_environments (environments defaults)
         (default [] (user_environments userConfig));
     exclude := default (exclude defaults) (user_exclude userConfig);
     include := default (include defaults) (user_include userConfig) |}.

(** [load]: [fileExists] is the answer of [fs.existsSync(configPath)],
    [required] what [require] of the file gives, [None] when it raises. *)
Definition load (fileExists : bool) (required : option user) : t :=
  if fileExists then
    match required with
    | Some config => mergeWithDefaults config
    | None => getDefaults
    end
  else getDefaults.

End Config.

(** ** Platforms (platforms/base.js, platforms/vercel.js): the pure part *)

Module Platform.

Inductive t := Base | Vercel.

Definition base_system_vars : list string :=
  ["CI"; "NODE_ENV"; "PWD"; "HOME"; "PATH"; "USER"; "SHELL"].

Definition vercel_system_vars : list string :=
  [ "VERCEL*"; "CI"; "VERCEL_ENV"; "VERCEL_TARGET_ENV"; "VERCEL_URL";
    "VERCEL_BRANCH_URL"; "VERCEL_PROJECT_PRODUCTION_URL"; "VERCEL_REGION";
    "VERCEL_DEPLOYMENT_ID"; "VERCEL_PROJECT_ID";
    "VERCEL_SKEW_PROTECTION_ENABLED"; "VERCEL_AUTOMATION_BYPASS_SECRET";
    "VERCEL_OIDC_TOKEN"; "VERCEL_GIT_PROVIDER"; "VERCEL_GIT_REPO_SLUG";
    "VERCEL_GIT_REPO_OWNER"; "VERCEL_GIT_REPO_ID"; "VERCEL_GIT_COMMIT_REF";
    "VERCEL_GIT_COMMIT_SHA"; "VERCEL_GIT_COMMIT_MESSAGE";
    "VERCEL_GIT_COMMIT_AUTHOR_LOGIN"; "VERCEL_GIT_COMMIT_AUTHOR_NAME";
    "VERCEL_GIT_PREVIOUS_SHA"; "VERCEL_GIT_PULL_REQUEST_ID";
    "NEXT_PUBLIC_VERCEL_URL"; "NEXT_PUBLIC_VERCEL_ENV";
    "NEXT_PUBLIC_VERCEL_PROJECT_PRODUCTION_URL";
    "NEXT_PUBLIC_VERCEL_BRANCH_URL"; "NEXT_PUBLIC_VERCEL_GIT_PROVIDER";
    "NEXT_PUBLIC_VERCEL_GIT_REPO_SLUG"; "NEXT_PUBLIC_VERCEL_GIT_REPO_OWNER";
    "NEXT_PUBLIC_VERCEL_GIT_REPO_ID"; "NEXT_PUBLIC_VERCEL_GIT_COMMIT_REF";
    "NEXT_PUBLIC_VERCEL_GIT_COMMIT_SHA";
    "NEXT_PUBLIC_VERCEL_GIT_COMMIT_MESSAGE";
    "NEXT_PUBLIC_VERCEL_GIT_COMMIT_AUTHOR_LOGIN";
    "NEXT_PUBLIC_VERCEL_GIT_COMMIT_AUTHOR_NAME";
    "NEXT_PUBLIC_VERCEL_GIT_PULL_REQUEST_ID" ].

(** [getSystemVars]: the base set, and for Vercel
    [new Set([...baseVars, ...vercelVars])]. *)
Definition getSystemVars (p : t) : list string :=
  match p with
  | Base => JS.Set_from base_system_vars
  | Vercel => JS.Set_from (JS.Set_from base_system_vars ++ JS.Set_from vercel_system_vars)
  end.

(** The [for ... of] loop of [isProtectedVar], which returns at the first
    pattern that matches. *)
Fixpoint isProtectedVar_loop (systemVars : list string) (key : string)
  : completion bool :=
  match systemVars with
  | [] => Return false
  | pattern :: rest =>
      b ← patternTest key pattern;
      if b : bool then Return true else isProtectedVar_loop rest key
  end.

Definition isProtectedVar (p : t) (key : string) : completion bool :=
  isProtectedVar_loop (getSystemVars p) key.

Definition getValidEnvironments (p : t) : list string :=
  ["development"; "preview"; "production"].

(** [validEnvironments.includes(environment)]. *)
Definition validateEnvironment (p : t) (environment : string) : bool :=
  existsb (String.eqb environment) (getValidEnvironments p).

End Platform.

(** ** The change set, as [calculateChanges] builds it and the prompt reads it *)

Record changes := {
  toAdd : list string;
  toUpdate : list string;
  toRemove : list string;
  protected : list string
}.

(** ** The world outside: shell, terminal, local file

    [execSync] either hands back the standard output of the command or
    raises; what it does may depend on everything that happened before.
    The parser of the local file (core/parser.js) is not part of the
    sources at hand and is taken as it comes. *)

Inductive command :=
| vc_env_ls (target : string)
| vc_env_rm (key target : string)
| vc_env_add (value key target : string).

Inductive exec_result :=
| Exited (stdout : string)
| Failed (message : string).

Inductive call :=
| listRemoteVars_call (target : string)
| removeRemoteVar_call (key target : string)
| setRemoteVar_call (key : string) (value : option string) (target : string).

Inductive event :=
| Exec (c : command) (r : exec_result)              (* a call of execSync *)
| Invoke (c : call)                                 (* a provider method is entered *)
| Diff (localVars : Object.t) (remoteVars : list string)  (* calculateChanges is entered *)
| Question (query answer : string).                 (* readline question and the line typed *)

Record validation := {
  isValid : bool;
  warnings : list string;
  issues : list string
}.

Record world := {
  execSync : list event -> command -> exec_result;
  readline : list event -> string -> string;
  existsSync : string -> bool;
  parseFile : string -> completion Object.t;
  validate : Object.t -> completion validation
}.

(** ** The monad of a run: read the world, extend the trace, maybe raise *)

Definition M (A : Type) : Type := world -> list event -> completion A * list event.

#[global] Instance M_ret : MRet M := fun A v _ tr => (Return v, tr).

#[global] Instance M_bind : MBind M := fun A B k m w tr =>
  match m w tr with
  | (Return v, tr') => k v w tr'
  | (Throw e, tr') => (Throw e, tr')
  | (NotModelled, tr') => (NotModelled, tr')
  end.

Definition lift {A} (c : completion A) : M A := fun _ tr => (c, tr).

Definition throw {A} (e : error) : M A := lift (Throw e).

Definition emit (e : event) : M unit := fun _ tr => (Return tt, tr ++ [e]).

(** [try { body } catch (error) { handler }]. *)
Definition try_catch {A} (body : M A) (handler : error -> M A) : M A :=
  fun w tr =>
    match body w tr with
    | (Throw e, tr') => handler e w tr'
    | r => r
    end.

(** [for (const x of l) { await f(x) }]. *)
Fixpoint for_of {A} (l : list A) (f : A -> M unit) : M unit :=
  match l with
  | [] => mret tt
  | x :: l' => _ ← f x; for_of l' f
  end.

Definition exec (c : command) : M string := fun w tr =>
  let r := execSync w tr c in
  match r with
  | Exited stdout => (Return stdout, tr ++ [Exec c r])
  | Failed message => (Throw (Error message), tr ++ [Exec c r])
  end.

Definition run {A} (m : M A) (w : world) : completion A * list event := m w [].


(** ** EnvParser (core/parser.js), as the world provides it *)

Module EnvParser.

Definition parseFile (filePath : string) : M Object.t :=
  fun w tr => (parseFile w filePath, tr).

Definition validate (vars : Object.t) : M validation :=
  fun w tr => (validate w vars, tr).

End EnvParser.

(** ** Platforms: the provider methods *)

Module Provider.

Import Platform.

(** The body of the [forEach] of [VercelPlatform.listRemoteVars] over the
    non-blank lines of the output. *)
Definition collect_line (envVars : list string) (line : string) : list string :=
  let trimmed := JS.trim line in
  if negb (String.eqb trimmed "") && negb (JS.startsWith trimmed "name")
     && negb (JS.startsWith trimmed "---") then
    let part0 := JS.first_field trimmed in
    if negb (String.eqb part0 "") && negb (JS.includes part0 "=") then
      JS.Set_add envVars part0
    else envVars
  else envVars.

Definition parse_listing (output : string) : list string :=
  let lines := List.filter (fun line => negb (String.eqb (JS.trim line) ""))
                 (JS.split_lines output) in
  fold_left collect_line lines [].

Definition not_implemented {A} (method : string) : M A :=
  throw (Error (method ++ " method must be implemented by platform subclass")).

Definition listRemoteVars (p : t) (environment : string) : M (list string) :=
  _ ← emit (Invoke (listRemoteVars_call environment));
  match p with
  | Base => not_implemented "listRemoteVars()"
  | Vercel =>
      try_catch
        (output ← exec (vc_env_ls environment);
         mret (parse_listing output))
        (fun _ => mret [])
  end.

Definition setRemoteVar (p : t) (key : string) (value : option string)
    (environment : string) : M bool :=
  _ ← emit (Invoke (setRemoteVar_call key value environment));
  match p with
  | Base => not_implemented "setRemoteVar()"
  | Vercel =>
      try_catch
        (_ ← try_catch (_ ← exec (vc_env_rm key environment); mret tt)
               (fun _ => mret tt);
         _ ← exec (vc_env_add (JS.to_string value) key environment);
         mret true)
        (fun _ => mret false)
  end.

Definition removeRemoteVar (p : t) (key environment : string) : M bool :=
  _ ← emit (Invoke (removeRemoteVar_call key environment));
  match p with
  | Base => not_implemented "removeRemoteVar()"
  | Vercel =>
      try_catch (_ ← exec (vc_env_rm key environment); mret true)
        (fun _ => mret false)
  end.

End Provider.

(** ** Prompts (utils/prompts.js) *)

Module Prompts.

Definition question (query : string) : M string := fun w tr =>
  let answer := readline w tr query in
  (Return answer, tr ++ [Question query answer]).

Definition confirm (message : string) (defaultValue : bool) : M bool :=
  let defaultText := if defaultValue then "Y/n" else "y/N" in
  answer ← question (message ++ " (" ++ defaultText ++ ") ");
  if String.eqb answer "" then mret defaultValue
  else mret (JS.startsWith (JS.toLowerCase answer) "y").

Definition confirmChanges (summary : changes) : M bool :=
  let total := List.length (toAdd summary) + List.length (toUpdate summary)
               + List.length (toRemove summary) in
  if Nat.eqb total 0 then mret false
  else confirm (String "010" "Do you want to proceed with these " ++ pretty total
                ++ " changes?") false.

End Prompts.


(** ** Strict mode code

    The body of a [class] is strict mode code.  In strict mode code the
    words below are reserved: a declaration that binds one of them, or an
    expression that reads one as a variable, is an early error, a
    [SyntaxError] raised when the text of the module is parsed, before any
    of it runs. *)

Module Strict.

Definition reserved_words : list string :=
  ["implements"; "interface"; "let"; "package"; "private"; "protected";
   "public"; "static"; "yield"].

Definition is_reserved (name : string) : bool :=
  existsb (String.eqb name) reserved_words.

(** A class body, as far as this early error goes: its methods, each with
    the names it declares. *)
Definition early_error (declarations : list (string * list string)) : bool :=
  existsb (fun method => existsb is_reserved (snd method)) declarations.

End Strict.

(** ** Syncer (core/syncer.js) *)

Module Syncer.

(** The names the methods of [class Syncer] declare with [const], method
    by method, in the order of the text. *)
Definition declarations : list (string * list string) :=
  [ ("constructor", []);
    ("setPlatform", []);
    ("push", ["filePath"; "target"; "localVars"; "filteredVars"; "validation";
              "remoteVars"; "changes"; "shouldProceed"]);
    ("pull", ["filePath"; "target"; "success"]);
    ("status", ["env"]);
    ("diff", ["filePath"; "target"; "localVars"; "remoteVars"; "changes"]);
    ("showEnvironmentStatus",
       ["filePath"; "target"; "localVars"; "remoteVars"; "changes"; "total"]);
    ("calculateChanges", ["toAdd"; "toUpdate"; "toRemove"; "protected"]);
    ("applyChanges", ["key"; "key"]);
    ("showDetailedChanges", ["value"; "preview"; "value"; "preview"]) ].

(** [require('./core/syncer')]: the text is parsed, then run.  Nothing of
    the class exists unless this returns. *)
Definition load_module : completion unit :=
  if Strict.early_error declarations then Throw SyntaxError else Return tt.

Record t := {
  config : Config.t;
  platform : option Platform.t;
  skipConfirmation : bool
}.



(** The methods.  Each definition is the call as a client makes it: the
    module is loaded, then the body of the method runs. *)

Definition calculateChanges (p : Platform.t) (localVars : Object.t)
    (remoteVars : list string) : completion changes :=
  _ ← load_module;
  let toAdd := List.filter (fun key => negb (JS.Set_has remoteVars key))
                 (Object.keys localVars) in
  let toUpdate := List.filter (fun key => JS.Set_has remoteVars key)
                    (Object.keys localVars) in
  notLocal ← JS.filter (fun key => b ← Object.hasOwnProperty localVars key;
                                   Return (negb b)) remoteVars;
  toRemove ← JS.filter (fun key => b ← Platform.isProtectedVar p key; Return (negb b))
               notLocal;
  notLocal' ← JS.filter (fun key => b ← Object.hasOwnProperty localVars key;
                                    Return (negb b)) remoteVars;
  protected ← JS.filter (fun key => Platform.isProtectedVar p key) notLocal';
  Return {| toAdd := toAdd; toUpdate := toUpdate;
            toRemove := toRemove; protected := protected |}.

Definition applyChanges (p : Platform.t) (changes : changes)
    (localVars : Object.t) (target : string) : M unit :=
  _ ← lift load_module;
  _ ← for_of (toRemove changes)
        (fun key => _ ← Provider.removeRemoteVar p key target; mret tt);
  for_of (toAdd changes ++ toUpdate changes)
    (fun key => value ← lift (Object.get localVars key);
                _ ← Provider.setRemoteVar p key value target;
                mret tt).





End Syncer.

(** ** The vocabulary of the statements *)

(** *** Patterns *)

Definition returns {A} (c : completion A) : Prop := exists v, c = Return v.

(** A character the pattern grammar reads as itself: no syntax character. *)
Definition plain_char (c : ascii) : bool :=
  negb (RegExp.is_quantifier_char c) && negb (RegExp.is_other_syntax_char c)
  && negb (Ascii.eqb c ".").

Fixpoint all_chars (f : ascii -> bool) (s : string) : bool :=
  match s with
  | EmptyString => true
  | String c s' => f c && all_chars f s'
  end.

(** Patterns made of stars and plain characters. *)
Definition glob_pattern (pattern : string) : bool :=
  all_chars (fun c => Ascii.eqb c "*" || plain_char c) pattern.

(** Patterns made of stars, dots and plain characters. *)
Definition star_dot_pattern (pattern : string) : bool :=
  all_chars (fun c => Ascii.eqb c "*" || Ascii.eqb c "." || plain_char c) pattern.

(** Patterns on which the pattern test is followed to its answer. *)
Definition safe_pattern (pattern : string) : bool :=
  negb (JS.includes pattern "*") || star_dot_pattern pattern.

Definition no_line_terminator (name : string) : bool :=
  all_chars (fun c => negb (RegExp.is_line_terminator c)) name.

(** Section 4.1 of the specification, in its own words: a star stands for a
    run of zero or more characters, every other character for itself, and
    the whole pattern covers the whole name. *)
Inductive Matches : string -> string -> Prop :=
| Matches_end : Matches "" ""
| Matches_char c pattern name :
    c <> "*"%char -> Matches pattern name ->
    Matches (String c pattern) (String c name)
| Matches_star pattern run name :
    Matches pattern name -> Matches (String "*" pattern) (run ++ name).

(** The test answers as section 4.1 says. *)
Definition meets_section_4_1 (name pattern : string) : Prop :=
  exists b, patternTest name pattern = Return b /\ (b = true <-> Matches pattern name).

(** The regular expression a star-and-dot pattern stands for. *)
Fixpoint translate (pattern : string) : RegExp.t :=
  match pattern with
  | EmptyString => []
  | String c p =>
      (if Ascii.eqb c "*" then RegExp.Star RegExp.Any
       else if Ascii.eqb c "." then RegExp.One RegExp.Any
       else RegExp.One (RegExp.Char c)) :: translate p
  end.

(** The text starts with a character that is no quantifier. *)
Definition head_not_quantifier (s : string) : bool :=
  match s with
  | String q _ => negb (RegExp.is_quantifier_char q)
  | EmptyString => false
  end.

(** *** Filtering *)

(** Some pattern of the list matches the name. *)
Definition matches_some (host : RegExp.engine) (name : string)
    (patterns : list string) : Prop :=
  exists pattern, pattern ∈ patterns /\ patternTest_in host name pattern = Return true.

(** Section 4.2 on [shouldExclude]. *)
Definition meets_section_4_2 (host : RegExp.engine) (config : Config.t)
    (name : string) : Prop :=
  (Config.include config <> [] -> ~ matches_some host name (Config.include config) ->
   Config.shouldExclude host config name = Return true) /\
  (Config.include config = [] \/ matches_some host name (Config.include config) ->
   exists b, Config.shouldExclude host config name = Return b /\
             (b = true <-> matches_some host name (Config.exclude config))).

(** A name the filter keeps. *)
Definition kept (host : RegExp.engine) (config : Config.t) (key : string) : Prop :=
  Config.shouldExclude host config key = Return false.

(** The answer of [shouldExclude] as a boolean. *)
Definition is_excluded (host : RegExp.engine) (config : Config.t) (key : string)
  : bool :=
  match Config.shouldExclude host config key with
  | Return b => b
  | _ => false
  end.

(** The configurations of the include/exclude examples. *)
Definition precedence_example : Config.t := {|
  Config.platform := "vercel";
  Config.environments := Config.environments Config.getDefaults;
  Config.exclude := ["NEXT_PUBLIC_SECRET"];
  Config.include := ["NEXT_PUBLIC_*"]
|}.

Definition broken_include_example : Config.t := {|
  Config.platform := "vercel";
  Config.environments := Config.environments Config.getDefaults;
  Config.exclude := [];
  Config.include := ["?*"]
|}.

(** A configuration whose exclude pattern is a character class followed by
    a star: names that begin with a capital letter. *)
Definition capitals_example : Config.t := {|
  Config.platform := "vercel";
  Config.environments := Config.environments Config.getDefaults;
  Config.exclude := ["[A-Z]*"];
  Config.include := []
|}.

(** An engine as far as the examples need one: it knows the expression
    [^[A-Z].*$], a capital letter followed by characters none of which is a
    line terminator, and is not asked about any other. *)
Definition capital_letter (c : ascii) : bool :=
  Nat.leb 65 (nat_of_ascii c) && Nat.leb (nat_of_ascii c) 90.

Definition example_host : RegExp.engine := fun source =>
  if String.eqb source "^[A-Z].*$" then
    RegExp.Compiled (fun s =>
      match s with
      | String c rest => capital_letter c && no_line_terminator rest
      | EmptyString => false
      end)
  else RegExp.Rejected.

(** *** Objects *)

(** The order of enumeration: an array index stands before every name that
    is none, and before the indices that are not below it. *)
Definition precedes (k1 k2 : string) : bool :=
  match Object.array_index k1, Object.array_index k2 with
  | Some a, Some b => (a <=? b)%N
  | Some _, None => true
  | None, Some _ => false
  | None, None => true
  end.

Definition earlier (k1 k2 : string) : Prop := precedes k1 k2 = true.

#[global] Instance earlier_dec k1 k2 : Decision (earlier k1 k2) :=
  decide (precedes k1 k2 = true).

(** The lists that are objects: distinct names, in the order of
    enumeration. *)
Definition is_object (o : Object.t) : Prop :=
  NoDup (Object.keys o) /\ StronglySorted earlier (Object.keys o).

(** What [filterVars] keeps of an entry: the name is not excluded, and it is
    not [__proto__], which an assignment does not create. *)
Definition keeps (host : RegExp.engine) (config : Config.t) (entry : string * string)
  : bool :=
  negb (is_excluded host config (fst entry)) && negb (String.eqb (fst entry) "__proto__").

(** *** Change sets *)

(** The number the confirmation step calls [total]. *)
Definition total (cs : changes) : nat :=
  List.length (toAdd cs) + List.length (toUpdate cs) + List.length (toRemove cs).

Definition sample_changes : changes :=
  {| toAdd := ["A"]; toUpdate := ["B"]; toRemove := ["OLD"]; protected := ["CI"] |}.

(** *** Traces *)

(** The mutation calls of a trace, in the order they were issued. *)
Definition is_mutation (c : call) : bool :=
  match c with
  | listRemoteVars_call _ => false
  | removeRemoteVar_call _ _ | setRemoteVar_call _ _ _ => true
  end.

Fixpoint mutations (tr : list event) : list call :=
  match tr with
  | [] => []
  | Invoke c :: tr' => if is_mutation c then c :: mutations tr' else mutations tr'
  | _ :: tr' => mutations tr'
  end.

(** What the listing of Vercel hands to the caller. *)
Definition listed (r : exec_result) : list string :=
  match r with
  | Exited output => Provider.parse_listing output
  | Failed _ => []
  end.



(** *** Prompts and commands *)

(** A typed line that [confirm] takes for a yes. *)
Definition affirmative (answer : string) : bool :=
  match answer with
  | String c _ => Ascii.eqb c "y" || Ascii.eqb c "Y"
  | EmptyString => false
  end.

Definition exited (r : exec_result) : bool :=
  match r with
  | Exited _ => true
  | Failed _ => false
  end.

(** What every name of a listing looks like. *)
Definition listed_name (n : string) : Prop :=
  n <> "" /\ JS.includes n "=" = false /\
  all_chars (fun c => negb (JS.is_whitespace c)) n = true /\
  JS.startsWith n "name" = false /\ JS.startsWith n "---" = false.

(** *** Tables of the listing *)

(** A text without line feed. *)
Definition one_line (s : string) : bool :=
  all_chars (fun c => negb (Ascii.eqb c "010")) s.

(** What follows the name in a row of the table: nothing, or white space
    and the other columns, up to the end of the line. *)
Definition columns_text (s : string) : bool :=
  one_line s &&
  match s with
  | EmptyString => true
  | String c _ => JS.is_whitespace c
  end.

(** A row: white space, the name, the other columns. *)
Record row := { row_indent : string; row_name : string; row_columns : string }.

Definition row_text (r : row) : string :=
  row_indent r +:+ row_name r +:+ row_columns r.

Definition well_formed_row (r : row) : Prop :=
  all_chars JS.is_whitespace (row_indent r) = true /\ one_line (row_indent r) = true /\
  listed_name (row_name r) /\ columns_text (row_columns r) = true.

(** The text of lines that each end in a line feed. *)
Fixpoint lines_text (lines : list string) : string :=
  match lines with
  | [] => EmptyString
  | line :: rest => line +:+ String "010" (lines_text rest)
  end.

(** *** Example worlds *)

Definition local_file : Object.t := [("A", "1"); ("B", "2")].

Definition no_warnings : validation :=
  {| isValid := true; warnings := []; issues := [] |}.

(** Every shell command fails; the user would answer yes. *)
Definition unreachable_provider : world := {|
  execSync := fun _ _ => Failed "network unreachable";
  readline := fun _ _ => "y";
  existsSync := fun _ => true;
  parseFile := fun _ => Return local_file;
  validate := fun _ => Return no_warnings
|}.

(** The listing shows two variables of the platform; every command works. *)
Definition only_protected_remote : world := {|
  execSync := fun _ c =>
    match c with
    | vc_env_ls _ => Exited "name  value  environments
VERCEL_URL  Encrypted  Production
CI  Encrypted  Production
"
    | _ => Exited ""
    end;
  readline := fun _ _ => "y";
  existsSync := fun _ => true;
  parseFile := fun _ => Return [("VERCEL_REGION", "fra1")];
  validate := fun _ => Return no_warnings
|}.


(** The listing prints an indented table of three rows, two of them for
    the same name. *)
Definition sample_rows : list row :=
  [ {| row_indent := "  "; row_name := "API_KEY";
       row_columns := "   Encrypted   Production" |};
    {| row_indent := "  "; row_name := "DB_URL";
       row_columns := "   Encrypted   Preview" |};
    {| row_indent := "  "; row_name := "API_KEY";
       row_columns := "   Encrypted   Preview" |} ].

Definition table_remote : world := {|
  execSync := fun _ _ =>
    Exited (lines_text ("  name      value       environments" :: map row_text sample_rows));
  readline := fun _ _ => "y";
  existsSync := fun _ => true;
  parseFile := fun _ => Return local_file;
  validate := fun _ => Return no_warnings
|}.



(** * Lemmas and theorems *)

(** ** The scan of a star-and-dot pattern *)

Section Scan.

Import RegExp.

Lemma plain_char_facts c :
  plain_char c = true ->
  is_quantifier_char c = false /\ is_other_syntax_char c = false /\
  Ascii.eqb c "." = false /\ Ascii.eqb c "$" = false /\ Ascii.eqb c "*" = false.
Proof.
  unfold plain_char. intros H.
  apply andb_prop in H as [H H3]. apply andb_prop in H as [H1 H2].
  apply negb_true_iff in H1, H2, H3.
  repeat split; try assumption.
  - unfold is_other_syntax_char in H2. rewrite !orb_false_iff in H2. tauto.
  - unfold is_quantifier_char in H1. rewrite !orb_false_iff in H1. tauto.
Qed.

Lemma star_dot_char c :
  (Ascii.eqb c "*" || Ascii.eqb c "." || plain_char c) = true ->
  c = "*"%char \/ c = "."%char \/ plain_char c = true.
Proof.
  intros H. apply orb_prop in H as [H | H]; [apply orb_prop in H as [H | H] |].
  - left. by apply Ascii.eqb_eq.
  - right; left. by apply Ascii.eqb_eq.
  - right; right. assumption.
Qed.

Lemma head_replace_stars p :
  star_dot_pattern p = true ->
  head_not_quantifier (JS.replace_stars p ++ "$") = true.
Proof.
  destruct p as [|c p]; [reflexivity |].
  cbn [star_dot_pattern all_chars]. intros H. apply andb_prop in H as [Hc _].
  destruct (star_dot_char c Hc) as [-> | [-> | Hp]]; [reflexivity | reflexivity |].
  destruct (plain_char_facts c Hp) as (Hq & _ & _ & _ & Hs).
  cbn [JS.replace_stars]. rewrite Hs.
  simpl. by rewrite Hq.
Qed.

(** What [terms] does on an atom character, by the character that follows. *)
Lemma terms_star a c rest :
  Ascii.eqb c "$" = false -> is_quantifier_char c = false -> atom_of c = Some a ->
  head_not_quantifier rest = true ->
  terms (String c (String "*" rest)) = push_term (Star a) (terms rest).
Proof.
  intros H1 H2 H3 H4. cbn [terms]. rewrite H1. cbn [andb]. rewrite H2, H3.
  destruct rest as [|l rest]; [reflexivity |].
  cbn in H4. apply negb_true_iff in H4.
  unfold is_quantifier_char in H4.
  apply orb_false_elim in H4 as [_ H4]. by rewrite H4.
Qed.

Lemma terms_one a c rest :
  Ascii.eqb c "$" = false -> is_quantifier_char c = false -> atom_of c = Some a ->
  head_not_quantifier rest = true ->
  terms (String c rest) = push_term (One a) (terms rest).
Proof.
  intros H1 H2 H3 H4. cbn [terms]. rewrite H1. cbn [andb]. rewrite H2, H3.
  destruct rest as [|q rest]; [reflexivity |].
  cbn in H4. apply negb_true_iff in H4.
  unfold is_quantifier_char in H4.
  apply orb_false_elim in H4 as [H4 Hq]. apply orb_false_elim in H4 as [Hs Hp].
  by rewrite Hs, Hp, Hq.
Qed.

Lemma terms_translate p :
  star_dot_pattern p = true ->
  terms (JS.replace_stars p ++ "$") = Return (translate p).
Proof.
  induction p as [|c p IH]; [reflexivity |].
  intros H. pose proof H as H'.
  cbn [star_dot_pattern all_chars] in H. apply andb_prop in H as [Hc Hp].
  specialize (IH Hp). pose proof (head_replace_stars p Hp) as Hh.
  destruct (star_dot_char c Hc) as [-> | [-> | Hpl]].
  - cbn [JS.replace_stars translate]. cbn.
    change (terms (String "." (String "*" (JS.replace_stars p ++ "$"))) =
            Return (Star Any :: translate p)).
    rewrite (terms_star Any); try reflexivity; [| assumption].
    by rewrite IH.
  - cbn [JS.replace_stars translate]. cbn.
    change (terms (String "." (JS.replace_stars p ++ "$")) =
            Return (One Any :: translate p)).
    rewrite (terms_one Any); try reflexivity; [| assumption].
    by rewrite IH.
  - destruct (plain_char_facts c Hpl) as (Hq & Ho & Hd & He & Hs).
    cbn [JS.replace_stars translate]. rewrite Hs, Hd.
    change (terms (String c (JS.replace_stars p ++ "$")) =
            Return (One (Char c) :: translate p)).
    rewrite (terms_one (Char c)); try assumption.
    + by rewrite IH.
    + unfold atom_of. by rewrite Hd, Ho.
Qed.

End Scan.

(** ** Matching the scanned pattern *)

Section Matching.

Import RegExp.

Lemma match_terms_star_nil a ts :
  match_terms (Star a :: ts) "" = match_terms ts "".
Proof. reflexivity. Qed.

Lemma match_terms_star_cons a ts c s :
  match_terms (Star a :: ts) (String c s) =
  (atom_matches a c && match_terms (Star a :: ts) s) || match_terms ts (String c s).
Proof. reflexivity. Qed.

Lemma append_nil_l (s : string) : "" +:+ s = s.
Proof. reflexivity. Qed.

Lemma append_cons c (s r : string) : String c s +:+ r = String c (s +:+ r).
Proof. reflexivity. Qed.

Lemma no_line_terminator_app run rest :
  no_line_terminator (run ++ rest) = true -> no_line_terminator rest = true.
Proof.
  induction run as [|c run IH]; [done |].
  rewrite append_cons. cbn [no_line_terminator all_chars].
  intros H. apply andb_prop in H as [_ H]. by apply IH.
Qed.

(** A starred dot takes any run of characters of a one-line name. *)
Lemma match_star_any ts n :
  no_line_terminator n = true ->
  match_terms (Star Any :: ts) n = true <->
  exists run rest, n = run +:+ rest /\ match_terms ts rest = true.
Proof.
  induction n as [|c n IH]; intros Hn.
  - rewrite match_terms_star_nil. split.
    + intros H. by exists "", "".
    + intros (run & rest & E & H). destruct run; [| discriminate].
      rewrite append_nil_l in E. by subst rest.
  - simpl in Hn. apply andb_prop in Hn as [Hc Hn].
    rewrite match_terms_star_cons. cbn [atom_matches]. rewrite Hc. cbn [andb].
    rewrite orb_true_iff, (IH Hn). split.
    + intros [(run & rest & -> & H) | H].
      * by exists (String c run), rest.
      * by exists "", (String c n).
    + intros (run & rest & E & H). destruct run as [|d run].
      * rewrite append_nil_l in E. subst rest. by right.
      * rewrite append_cons in E. injection E as -> ->. left. by exists run, rest.
Qed.

Lemma Matches_nil_inv n : Matches "" n -> n = "".
Proof. by inversion 1. Qed.

Lemma Matches_star_inv p n :
  Matches (String "*" p) n -> exists run rest, n = run +:+ rest /\ Matches p rest.
Proof. inversion 1; subst; [done | by eexists _, _]. Qed.

Lemma Matches_char_inv c p n :
  c <> "*"%char -> Matches (String c p) n ->
  exists n', n = String c n' /\ Matches p n'.
Proof. intros Hc. inversion 1; subst; [by eexists | done]. Qed.

Lemma match_translate p :
  glob_pattern p = true ->
  forall n, no_line_terminator n = true ->
  match_terms (translate p) n = true <-> Matches p n.
Proof.
  induction p as [|c p IH]; intros Hp n Hn.
  - cbn [translate match_terms]. split.
    + intros H. apply String.eqb_eq in H as ->. constructor.
    + intros H. apply Matches_nil_inv in H as ->. reflexivity.
  - cbn [glob_pattern all_chars] in Hp. apply andb_prop in Hp as [Hc Hp].
    specialize (IH Hp). cbn [translate].
    destruct (Ascii.eqb_spec c "*") as [-> | Hne].
    + rewrite (match_star_any _ _ Hn). split.
      * intros (run & rest & -> & H). constructor.
        apply IH; [| done]. by eapply no_line_terminator_app.
      * intros H. apply Matches_star_inv in H as (run & rest & -> & H).
        exists run, rest. split; [done |].
        apply IH; [| done]. by eapply no_line_terminator_app.
    + cbn [orb] in Hc. destruct (plain_char_facts c Hc) as (_ & _ & Hd & _ & _).
      rewrite Hd. cbn [match_terms]. destruct n as [|d n].
      * split; [done |]. intros H.
        apply (Matches_char_inv _ _ _ Hne) in H as (n' & E & _). discriminate.
      * simpl in Hn. apply andb_prop in Hn as [_ Hn].
        cbn [atom_matches]. rewrite andb_true_iff, (IH n Hn). split.
        -- intros [E H]. apply Ascii.eqb_eq in E as ->. by constructor.
        -- intros H. apply (Matches_char_inv _ _ _ Hne) in H as (n' & E & H).
           injection E as -> ->. split; [apply Ascii.eqb_refl | done].
Qed.

(** A pattern without a star covers its own text only. *)
Lemma Matches_no_star p n :
  JS.includes p "*" = false -> Matches p n <-> n = p.
Proof.
  revert n. induction p as [|c p IH]; intros n Hp.
  - split; [apply Matches_nil_inv | intros ->; constructor].
  - cbn [JS.includes] in Hp. apply orb_false_elim in Hp as [Hc Hp].
    apply Ascii.eqb_neq in Hc. split.
    + intros H. apply (Matches_char_inv _ _ _ Hc) in H as (n' & -> & H).
      f_equal. by apply IH.
    + intros ->. constructor; [done |]. by apply IH.
Qed.

End Matching.

(** ** The pattern test *)

Lemma patternTest_exact key pattern :
  JS.includes pattern "*" = false ->
  patternTest key pattern = Return (String.eqb key pattern).
Proof. unfold patternTest. by intros ->. Qed.

Lemma patternTest_star_dot key pattern :
  JS.includes pattern "*" = true -> star_dot_pattern pattern = true ->
  patternTest key pattern = Return (RegExp.test (translate pattern) key).
Proof.
  intros Hs Hp. unfold patternTest. rewrite Hs.
  change (RegExp.new ("^" ++ JS.replace_stars pattern ++ "$"))
    with (RegExp.terms (JS.replace_stars pattern ++ "$")).
  by rewrite (terms_translate _ Hp).
Qed.

Lemma glob_star_dot pattern :
  glob_pattern pattern = true -> star_dot_pattern pattern = true.
Proof.
  induction pattern as [|c p IH]; [done |].
  change (glob_pattern (String c p))
    with ((Ascii.eqb c "*" || plain_char c) && glob_pattern p).
  change (star_dot_pattern (String c p))
    with ((Ascii.eqb c "*" || Ascii.eqb c "." || plain_char c) && star_dot_pattern p).
  intros H. apply andb_prop in H as [Hc Hp]. rewrite (IH Hp), andb_true_r.
  apply orb_prop in Hc as [-> | ->]; [done | by rewrite orb_true_r].
Qed.

Lemma patternTest_returns key pattern :
  JS.includes pattern "*" = false \/ star_dot_pattern pattern = true ->
  returns (patternTest key pattern).
Proof.
  intros [H | H].
  - eexists. by apply patternTest_exact.
  - destruct (JS.includes pattern "*") eqn:Hs.
    + eexists. by apply patternTest_star_dot.
    + eexists. by apply patternTest_exact.
Qed.

Lemma patternTest_glob name pattern :
  glob_pattern pattern = true -> no_line_terminator name = true ->
  meets_section_4_1 name pattern.
Proof.
  intros Hp Hn. destruct (JS.includes pattern "*") eqn:Hs.
  - exists (RegExp.test (translate pattern) name). split.
    + apply patternTest_star_dot; [done | by apply glob_star_dot].
    + by apply match_translate.
  - exists (String.eqb name pattern). split; [by apply patternTest_exact |].
    rewrite String.eqb_eq. symmetry. by apply Matches_no_star.
Qed.

Example exact_match : patternTest "FOO" "FOO" = Return true.
Proof. reflexivity. Qed.

Example exact_mismatch : patternTest "FOO" "BAR" = Return false.
Proof. reflexivity. Qed.

Example lone_star : patternTest "X" "*" = Return true.
Proof. reflexivity. Qed.

(** The dot of a pattern is read as the wildcard of the regular expression,
    not as itself. *)
Example dot_in_pattern : patternTest "AXB" "A.*" = Return true.
Proof. reflexivity. Qed.

(** A star does not run over a line terminator. *)
Example star_stops_at_newline :
  patternTest (String "A" (String "010" "B")) "A*" = Return false.
Proof. reflexivity. Qed.

(** C4, as stated, fails: the pattern [A.*] matches the name [AXB], which
    does not start with [A.]. *)
Lemma pattern_matcher_dot_counterexample : ~ meets_section_4_1 "AXB" "A.*".
Proof.
  intros (b & Hb & Hiff). rewrite dot_in_pattern in Hb. injection Hb as <-.
  destruct Hiff as [Hm _]. specialize (Hm eq_refl).
  apply Matches_char_inv in Hm as (n' & E & Hm); [| done].
  injection E as <-.
  apply Matches_char_inv in Hm as (n' & E & _); [| done].
  discriminate.
Qed.

(** C4 (amended).  A pattern without a star matches exactly the names equal
    to it, character for character.  A pattern made of stars and of
    characters that are not regular-expression syntax characters matches a
    name without line terminators iff the name is the pattern with every
    star replaced by some run of zero or more characters, the whole pattern
    covering the whole name; so [VERCEL_*] matches [VERCEL_URL] and not
    [MY_VERCEL_URL].  Beyond that the pattern is read as a regular
    expression: [A.*] matches [AXB], and [A*] does not match a name in
    which a line feed follows the [A]. *)
Theorem pattern_matcher_glob :
  (forall name pattern,
     JS.includes pattern "*" = false ->
     exists b, patternTest name pattern = Return b /\ (b = true <-> name = pattern)) /\
  (forall name pattern,
     glob_pattern pattern = true -> no_line_terminator name = true ->
     meets_section_4_1 name pattern) /\
  patternTest "VERCEL_URL" "VERCEL_*" = Return true /\
  patternTest "MY_VERCEL_URL" "VERCEL_*" = Return false /\
  patternTest "AXB" "A.*" = Return true /\
  patternTest (String "A" (String "010" "B")) "A*" = Return false.
Proof.
  split; [| split].
  - intros name pattern H. exists (String.eqb name pattern).
    split; [by apply patternTest_exact | apply String.eqb_eq].
  - apply patternTest_glob.
  - repeat split.
Qed.

Lemma pattern_matcher_glob_witness :
  (exists b, patternTest "FOO" "FOO" = Return b /\ (b = true <-> "FOO" = "FOO")) /\
  meets_section_4_1 "NEXT_PUBLIC_URL" "NEXT_*_URL".
Proof.
  destruct pattern_matcher_glob as (Hexact & Hglob & _).
  split; [apply Hexact | apply Hglob]; reflexivity.
Defined.

(** C8, as stated, fails: on the pattern [+*] the constructor of the
    regular expression raises a syntax error. *)
Lemma pattern_matcher_raises_counterexample :
  patternTest "A" "+*" = Throw SyntaxError /\ ~ returns (patternTest "A" "+*").
Proof. split; [reflexivity |]. intros [b H]. discriminate. Qed.

(** C8 (amended).  The pattern test returns a boolean, without raising, for
    every name and every pattern that has no star or that is made of stars,
    dots and characters that are not regular-expression syntax
    characters. *)
Theorem pattern_matcher_total_without_syntax_chars name pattern :
  JS.includes pattern "*" = false \/ star_dot_pattern pattern = true ->
  exists b : bool, patternTest name pattern = Return b.
Proof. apply patternTest_returns. Qed.

Lemma pattern_matcher_total_without_syntax_chars_witness :
  (exists b : bool, patternTest "VERCEL_URL" "VERCEL*" = Return b) /\
  (exists b : bool, patternTest "A" "(a|b)+" = Return b).
Proof.
  split.
  - apply pattern_matcher_total_without_syntax_chars. right. reflexivity.
  - apply pattern_matcher_total_without_syntax_chars. left. reflexivity.
Defined.


(** ** The pattern test on a host *)

Lemma push_term_raises x r e :
  RegExp.push_term x r = Throw e -> r = Throw e.
Proof. destruct r; cbn; congruence. Qed.

(** The scan raises nothing but [SyntaxError]. *)
Lemma terms_raises_SyntaxError n : forall src e,
  String.length src <= n -> RegExp.terms src = Throw e -> e = SyntaxError.
Proof.
  induction n as [|n IH]; intros src e Hn H; destruct src as [|c rest];
    try discriminate; cbn [String.length] in Hn; [lia |].
  cbn [RegExp.terms] in H.
  repeat (case_match; try discriminate); try congruence;
    apply push_term_raises in H; (eapply IH; [| exact H]);
    subst; cbn [String.length] in *; lia.
Qed.

Lemma patternTest_raises_SyntaxError key pattern e :
  patternTest key pattern = Throw e -> e = SyntaxError.
Proof.
  unfold patternTest. destruct (JS.includes pattern "*"); [| discriminate].
  change (RegExp.new ("^" ++ JS.replace_stars pattern ++ "$"))
    with (RegExp.terms (JS.replace_stars pattern ++ "$")).
  destruct (RegExp.terms (JS.replace_stars pattern ++ "$")) as [r | e' |] eqn:E;
    cbn; try discriminate.
  intros [= <-]. by eapply terms_raises_SyntaxError.
Qed.

(** Where the fragment answers, the host is not asked: what is proved of
    [patternTest] there holds of the test on every host. *)
Lemma patternTest_in_followed host key pattern :
  patternTest key pattern <> NotModelled ->
  patternTest_in host key pattern = patternTest key pattern.
Proof. unfold patternTest_in. by destruct (patternTest key pattern). Qed.

Lemma patternTest_in_safe host key pattern :
  JS.includes pattern "*" = false \/ star_dot_pattern pattern = true ->
  patternTest_in host key pattern = patternTest key pattern.
Proof.
  intros H. apply patternTest_in_followed.
  by destruct (patternTest_returns key pattern H) as [b ->].
Qed.

(** On a host the test has an answer or raises [SyntaxError]. *)
Lemma patternTest_in_decided host key pattern :
  returns (patternTest_in host key pattern) \/
  patternTest_in host key pattern = Throw SyntaxError.
Proof.
  unfold patternTest_in.
  destruct (patternTest key pattern) as [b | e |] eqn:E.
  - left. by exists b.
  - right. by rewrite (patternTest_raises_SyntaxError _ _ _ E).
  - destruct (host _); [by right | left; by eexists].
Qed.

(** ** [some] over a list of patterns *)

Lemma some_true {A} (f : A -> completion bool) l :
  JS.some f l = Return true -> exists x, x ∈ l /\ f x = Return true.
Proof.
  induction l as [|x l IH]; [discriminate |].
  cbn [JS.some]. destruct (f x) as [[|] | |] eqn:E; try discriminate.
  - intros _. exists x. split; [left | done].
  - intros H. destruct (IH H) as (y & Hy & Hf). exists y. split; [by right | done].
Qed.

Lemma some_false {A} (f : A -> completion bool) l :
  JS.some f l = Return false -> forall x, x ∈ l -> f x = Return false.
Proof.
  induction l as [|x l IH]; intros H y Hy; [by apply elem_of_nil in Hy |].
  cbn [JS.some] in H. destruct (f x) as [[|] | |] eqn:E; try discriminate.
  apply elem_of_cons in Hy as [-> | Hy]; [done | by apply IH].
Qed.

Lemma some_returns {A} (f : A -> completion bool) l :
  (forall x, x ∈ l -> returns (f x)) -> returns (JS.some f l).
Proof.
  induction l as [|x l IH]; intros H; [by exists false |].
  cbn [JS.some]. destruct (H x) as [[|] ->]; [left | by exists true |].
  apply IH. intros y Hy. apply H. by right.
Qed.

Lemma some_decided {A} (f : A -> completion bool) l :
  (forall x, returns (f x) \/ f x = Throw SyntaxError) ->
  returns (JS.some f l) \/ JS.some f l = Throw SyntaxError.
Proof.
  intros H. induction l as [|x l IH]; [left; by exists false |].
  cbn [JS.some]. destruct (H x) as [[[|] ->] | ->]; [left; by exists true | done | by right].
Qed.

Lemma some_matches host name patterns b :
  JS.some (patternTest_in host name) patterns = Return b ->
  b = true <-> matches_some host name patterns.
Proof.
  intros H. split.
  - intros ->. by apply some_true.
  - intros (p & Hp & Hm). destruct b; [done |].
    rewrite (some_false _ _ H p Hp) in Hm. discriminate.
Qed.

(** ** [shouldExclude] *)

Lemma shouldExclude_no_include host config key :
  Config.include config = [] ->
  Config.shouldExclude host config key =
  JS.some (patternTest_in host key) (Config.exclude config).
Proof. unfold Config.shouldExclude. by intros ->. Qed.

Lemma shouldExclude_include host config key :
  Config.include config <> [] ->
  Config.shouldExclude host config key =
  (shouldInclude ← JS.some (patternTest_in host key) (Config.include config);
   if negb shouldInclude then Return true
   else JS.some (patternTest_in host key) (Config.exclude config)).
Proof.
  unfold Config.shouldExclude. destruct (Config.include config); [done |]. done.
Qed.

Lemma shouldExclude_meets_section_4_2 host config name :
  returns (Config.shouldExclude host config name) -> meets_section_4_2 host config name.
Proof.
  intros [b Hb]. unfold meets_section_4_2.
  destruct (decide (Config.include config = [])) as [Hi | Hi].
  - rewrite shouldExclude_no_include in Hb |- * by done. split; [done |].
    intros _. exists b. split; [done | by apply some_matches].
  - rewrite shouldExclude_include in Hb |- * by done.
    destruct (JS.some (patternTest_in host name) (Config.include config))
      as [[|] | |] eqn:Hs; try discriminate; cbn in Hb |- *.
    + split.
      * intros _ Hn. destruct Hn. by apply some_true.
      * intros _. exists b. split; [done | by apply some_matches].
    + split; [done |]. intros [? | (p & Hp & Hm)]; [done |].
      rewrite (some_false _ _ Hs p Hp) in Hm. discriminate.
Qed.

Lemma shouldExclude_decided host config name :
  returns (Config.shouldExclude host config name) \/
  Config.shouldExclude host config name = Throw SyntaxError.
Proof.
  pose proof (some_decided (patternTest_in host name) (Config.include config)
                (fun p => patternTest_in_decided host name p)) as Hin.
  pose proof (some_decided (patternTest_in host name) (Config.exclude config)
                (fun p => patternTest_in_decided host name p)) as Hex.
  unfold Config.shouldExclude.
  destruct (Nat.ltb 0 (List.length (Config.include config))); [| done].
  destruct Hin as [[[|] ->] | ->]; cbn; [done | left; by exists true | by right].
Qed.

Lemma shouldExclude_returns host config name :
  (forall pattern, pattern ∈ Config.include config ++ Config.exclude config ->
     JS.includes pattern "*" = false \/ star_dot_pattern pattern = true) ->
  returns (Config.shouldExclude host config name).
Proof.
  intros H.
  assert (Hin : returns (JS.some (patternTest_in host name) (Config.include config))).
  { apply some_returns. intros p Hp.
    rewrite patternTest_in_safe; apply patternTest_returns || idtac; apply H;
      apply elem_of_app; by left. }
  assert (Hex : returns (JS.some (patternTest_in host name) (Config.exclude config))).
  { apply some_returns. intros p Hp.
    rewrite patternTest_in_safe; apply patternTest_returns || idtac; apply H;
      apply elem_of_app; by right. }
  unfold Config.shouldExclude.
  destruct (Nat.ltb 0 (List.length (Config.include config))); [| done].
  destruct Hin as [[|] ->]; cbn; [done | by exists true].
Qed.

(** C5, as stated, fails: with [include = ["?*"]] no include pattern
    matches the name [A], yet [shouldExclude] raises instead of returning
    true, whatever the engine of the host. *)
Lemma shouldExclude_raises_counterexample :
  (forall host, Config.shouldExclude host broken_include_example "A" = Throw SyntaxError) /\
  (forall host, ~ meets_section_4_2 host broken_include_example "A").
Proof.
  split; [reflexivity |]. intros host [H _].
  assert (E : Config.shouldExclude host broken_include_example "A" = Return true).
  { apply H; [done |]. intros (p & Hp & Hm).
    apply list_elem_of_singleton in Hp as ->. discriminate. }
  discriminate.
Qed.

(** C5 (amended).  For every name and every filter configuration on which
    [shouldExclude] raises no error: if the include list is not empty and no
    include pattern matches the name, the result is true; otherwise the
    result is true iff some exclude pattern matches the name.  The only
    error [shouldExclude] raises is the [SyntaxError] of a starred pattern
    that is no regular expression, and it raises none when every include
    and exclude pattern has no star or is made of stars, dots and characters
    that are not regular-expression syntax characters.  With include
    [NEXT_PUBLIC_*] and exclude [NEXT_PUBLIC_SECRET], [NEXT_PUBLIC_SECRET]
    is excluded, [NEXT_PUBLIC_URL] is kept and [OTHER_VAR] is excluded. *)
Theorem shouldExclude_include_then_exclude :
  (forall host config name,
     returns (Config.shouldExclude host config name) ->
     meets_section_4_2 host config name) /\
  (forall host config name,
     returns (Config.shouldExclude host config name) \/
     Config.shouldExclude host config name = Throw SyntaxError) /\
  (forall host config name,
     (forall pattern, pattern ∈ Config.include config ++ Config.exclude config ->
        JS.includes pattern "*" = false \/ star_dot_pattern pattern = true) ->
     returns (Config.shouldExclude host config name)) /\
  (forall host,
     Config.shouldExclude host precedence_example "NEXT_PUBLIC_SECRET" = Return true /\
     Config.shouldExclude host precedence_example "NEXT_PUBLIC_URL" = Return false /\
     Config.shouldExclude host precedence_example "OTHER_VAR" = Return true).
Proof.
  split; [exact shouldExclude_meets_section_4_2 |].
  split; [exact shouldExclude_decided |].
  split; [exact shouldExclude_returns |].
  intros host. repeat split.
Qed.

Lemma shouldExclude_include_then_exclude_witness :
  meets_section_4_2 example_host capitals_example "Ab" /\
  meets_section_4_2 example_host precedence_example "OTHER_VAR" /\
  returns (Config.shouldExclude example_host Config.getDefaults "VERCEL_URL").
Proof.
  destruct shouldExclude_include_then_exclude as (Hmeets & _ & Hret & _).
  split; [| split].
  - apply Hmeets. by exists true.
  - apply Hmeets. by exists true.
  - apply Hret. intros pattern Hp.
    repeat (apply elem_of_cons in Hp as [-> | Hp]; [right; reflexivity |]).
    by apply elem_of_nil in Hp.
Defined.

(** ** Writing a property of an object *)

Lemma has_spec (o : Object.t) key :
  Object.has o key = true <-> key ∈ Object.keys o.
Proof.
  unfold Object.has. rewrite existsb_exists. split.
  - intros (k & Hk & E). apply String.eqb_eq in E as ->. by apply list_elem_of_In.
  - intros H. exists key. split; [by apply list_elem_of_In | apply String.eqb_refl].
Qed.

Lemma has_false (o : Object.t) key :
  Object.has o key = false <-> key ∉ Object.keys o.
Proof.
  destruct (Object.has o key) eqn:E.
  - apply has_spec in E. split; [discriminate | done].
  - split; [| done]. intros _ H. apply has_spec in H. congruence.
Qed.

Lemma keys_replace (o : Object.t) key value :
  Object.keys (Object.replace o key value) = Object.keys o.
Proof.
  induction o as [|[k v] o IH]; [done |].
  cbn [Object.replace]. destruct (String.eqb k key); cbn; [done |].
  unfold Object.keys in IH. by rewrite IH.
Qed.

Lemma keys_insert_index (o : Object.t) n key value :
  Object.keys (Object.insert_index o n key value) ≡ₚ key :: Object.keys o.
Proof.
  induction o as [|[k v] o IH]; [done |].
  cbn [Object.insert_index]. destruct (Object.array_index k) as [m |]; [| done].
  destruct (m <=? n)%N; [| done].
  cbn [Object.keys map fst] in *. rewrite IH. apply Permutation_swap.
Qed.

(** The names of an object after a write. *)
Lemma keys_put (o : Object.t) key value :
  Object.keys (Object.put o key value) ≡ₚ
  if Object.has o key || String.eqb key "__proto__" then Object.keys o
  else key :: Object.keys o.
Proof.
  unfold Object.put. destruct (Object.has o key); cbn [orb].
  - by rewrite keys_replace.
  - destruct (String.eqb key "__proto__"); [done |].
    destruct (Object.array_index key) as [n |]; [apply keys_insert_index |].
    unfold Object.keys. rewrite map_app. cbn. by rewrite Permutation_app_comm.
Qed.

Lemma NoDup_keys_put (o : Object.t) key value :
  NoDup (Object.keys o) -> NoDup (Object.keys (Object.put o key value)).
Proof.
  intros H. rewrite keys_put.
  destruct (Object.has o key) eqn:E; cbn [orb]; [done |].
  destruct (String.eqb key "__proto__"); [done |].
  apply NoDup_cons. split; [by apply has_false | done].
Qed.

Lemma elem_of_keys_put (o : Object.t) key value k :
  k ∈ Object.keys (Object.put o key value) ->
  k ∈ Object.keys o \/ (k = key /\ key <> "__proto__").
Proof.
  rewrite keys_put. destruct (Object.has o key); cbn [orb]; [by left |].
  destruct (String.eqb_spec key "__proto__"); [by left |].
  intros H. apply elem_of_cons in H as [-> | H]; [by right | by left].
Qed.

(** ** The order of enumeration *)

Lemma earlier_index k key m n :
  Object.array_index k = Some m -> Object.array_index key = Some n ->
  earlier k key <-> (m <= n)%N.
Proof.
  intros Hk Hkey. unfold earlier, precedes. rewrite Hk, Hkey. apply N.leb_le.
Qed.

Lemma earlier_name k key :
  Object.array_index key = None -> earlier k key.
Proof.
  intros Hkey. unfold earlier, precedes. rewrite Hkey.
  by destruct (Object.array_index k).
Qed.

Lemma earlier_after_name k x :
  Object.array_index k = None -> earlier k x -> Object.array_index x = None.
Proof.
  intros Hk. unfold earlier, precedes. rewrite Hk.
  by destruct (Object.array_index x).
Qed.

(** An index that every name of the object precedes is written last. *)
Lemma insert_index_last (o : Object.t) n key value :
  Object.array_index key = Some n ->
  Forall (fun k => earlier k key) (Object.keys o) ->
  Object.insert_index o n key value = o ++ [(key, value)].
Proof.
  intros Hkey. induction o as [|[k v] o IH]; [done |].
  cbn [Object.keys map fst]. intros H. apply Forall_cons in H as [Hk H].
  cbn [Object.insert_index].
  destruct (Object.array_index k) as [m |] eqn:E.
  - apply (earlier_index _ _ _ _ E Hkey), N.leb_le in Hk. rewrite Hk.
    cbn [app]. f_equal. by apply IH.
  - unfold earlier, precedes in Hk. rewrite E, Hkey in Hk. discriminate.
Qed.

Lemma put_last (o : Object.t) key value :
  key ∉ Object.keys o -> key <> "__proto__" ->
  Forall (fun k => earlier k key) (Object.keys o) ->
  Object.put o key value = o ++ [(key, value)].
Proof.
  intros Hfresh Hproto Hall. unfold Object.put.
  apply has_false in Hfresh. rewrite Hfresh.
  destruct (String.eqb_spec key "__proto__") as [Heq | Hne]; [done |].
  destruct (Object.array_index key) as [n |] eqn:E; [| done].
  by apply insert_index_last.
Qed.

Lemma sorted_insert_index (o : Object.t) n key value :
  Object.array_index key = Some n ->
  StronglySorted earlier (Object.keys o) ->
  StronglySorted earlier (Object.keys (Object.insert_index o n key value)).
Proof.
  intros Hkey. induction o as [|[k v] o IH]; intros Hs.
  { repeat constructor. }
  cbn [Object.keys map fst] in Hs. apply StronglySorted_cons in Hs as [Hk Hs].
  cbn [Object.insert_index].
  destruct (Object.array_index k) as [m |] eqn:E.
  - destruct (m <=? n)%N eqn:Hle.
    + cbn [Object.keys map fst]. apply StronglySorted_cons. split; [| by apply IH].
      pose proof (keys_insert_index o n key value) as Hp.
      unfold Object.keys in Hp. rewrite Hp. apply Forall_cons. split; [| done].
      apply (earlier_index _ _ _ _ E Hkey). by apply N.leb_le.
    + cbn [Object.keys map fst]. apply StronglySorted_cons. split.
      * apply Forall_cons. split.
        -- apply (earlier_index _ _ _ _ Hkey E). apply N.leb_gt in Hle. lia.
        -- eapply Forall_impl; [exact Hk |]. intros x Hx. cbn beta in Hx.
           destruct (Object.array_index x) as [m' |] eqn:Ex.
           ++ apply (earlier_index _ _ _ _ Hkey Ex).
              apply (earlier_index _ _ _ _ E Ex) in Hx. apply N.leb_gt in Hle. lia.
           ++ by apply earlier_name.
      * apply StronglySorted_cons. by split.
  - cbn [Object.keys map fst]. apply StronglySorted_cons. split.
    + apply Forall_cons. split; [by apply earlier_name |].
      eapply Forall_impl; [exact Hk |]. intros x Hx. cbn beta in Hx.
      apply earlier_name. by apply (earlier_after_name k).
    + apply StronglySorted_cons. by split.
Qed.

(** A write keeps an object in the order of enumeration. *)
Lemma sorted_put (o : Object.t) key value :
  StronglySorted earlier (Object.keys o) ->
  StronglySorted earlier (Object.keys (Object.put o key value)).
Proof.
  intros Hs. unfold Object.put. destruct (Object.has o key).
  { by rewrite keys_replace. }
  destruct (String.eqb key "__proto__"); [done |].
  destruct (Object.array_index key) as [n |] eqn:E.
  { by apply sorted_insert_index. }
  unfold Object.keys. rewrite map_app. apply StronglySorted_app.
  split; [| split; [done | repeat constructor]].
  intros x1 x2 _ Hx2. apply list_elem_of_singleton in Hx2 as ->.
  by apply earlier_name.
Qed.

(** ** [filterVars] *)

Section FilterVars.

Variable host : RegExp.engine.
Variable config : Config.t.

(** What the loop leaves in [filtered]: an object, every name of which is
    kept and none of which is [__proto__]. *)
Lemma filterVars_loop_kept entries : forall filtered excluded F ex,
  Config.filterVars_loop host config entries filtered excluded = Return (F, ex) ->
  is_object filtered ->
  (forall k, k ∈ Object.keys filtered -> kept host config k /\ k <> "__proto__") ->
  is_object F /\
  (forall k, k ∈ Object.keys F -> kept host config k /\ k <> "__proto__").
Proof.
  induction entries as [|[key value] rest IH]; intros filtered excluded F ex H Ho Hk.
  - injection H as <- <-. done.
  - cbn [Config.filterVars_loop] in H.
    destruct (Config.shouldExclude host config key) as [[|] | |] eqn:E;
      try discriminate; cbn in H.
    + by eapply IH.
    + eapply IH; [exact H | |].
      * destruct Ho as [Hnd Hs]. split; [by apply NoDup_keys_put | by apply sorted_put].
      * intros k Hin. apply elem_of_keys_put in Hin as [Hin | [-> Hp]]; [by apply Hk | done].
Qed.

(** The loop in closed form, on entries that continue an object. *)
Lemma filterVars_loop_closed_form entries : forall filtered excluded F ex,
  Config.filterVars_loop host config entries filtered excluded = Return (F, ex) ->
  is_object (filtered ++ entries) ->
  F = filtered ++ List.filter (keeps host config) entries /\
  ex = excluded ++ List.filter (is_excluded host config) (Object.keys entries).
Proof.
  induction entries as [|[key value] rest IH]; intros filtered excluded F ex H Ho.
  - injection H as <- <-. cbn. by rewrite !app_nil_r.
  - destruct Ho as [Hnd Hs]. unfold Object.keys in Hnd, Hs.
    rewrite map_app in Hnd, Hs. cbn [map fst] in Hnd, Hs.
    assert (Hrest : is_object (filtered ++ rest)).
    { unfold is_object, Object.keys. rewrite map_app. split.
      - apply NoDup_app in Hnd as (H1 & H2 & H3). apply NoDup_cons in H3 as [_ H3].
        apply NoDup_app. repeat split; [done | | done].
        intros x Hx Hx'. apply (H2 x Hx). by right.
      - apply StronglySorted_app in Hs as (H1 & H2 & H3).
        apply StronglySorted_cons in H3 as [_ H3].
        apply StronglySorted_app. repeat split; [| done | done].
        intros x1 x2 Hx1 Hx2. apply H1; [done | by right]. }
    assert (Hfresh : key ∉ map fst filtered).
    { apply NoDup_app in Hnd as (_ & H2 & _). intros Hin. apply (H2 key Hin). left. }
    assert (Hall : Forall (fun k => earlier k key) (map fst filtered)).
    { apply StronglySorted_app in Hs as (H1 & _ & _).
      apply Forall_forall. intros x Hx. apply H1; [done | left]. }
    cbn [Config.filterVars_loop] in H. cbn [List.filter Object.keys map fst].
    destruct (Config.shouldExclude host config key) as [[|] | |] eqn:E;
      try discriminate; cbn in H.
    + assert (Hx : is_excluded host config key = true)
        by (unfold is_excluded; by rewrite E).
      assert (Hkp : keeps host config (key, value) = false)
        by (unfold keeps; cbn [fst]; by rewrite Hx).
      rewrite Hx, Hkp. destruct (IH _ _ _ _ H Hrest) as [-> ->].
      split; [done | by rewrite <- app_assoc].
    + assert (Hx : is_excluded host config key = false)
        by (unfold is_excluded; by rewrite E).
      rewrite Hx.
      destruct (String.eqb_spec key "__proto__") as [Hp | Hp].
      * assert (Hkp : keeps host config (key, value) = false).
        { unfold keeps. cbn [fst]. rewrite Hp. by rewrite andb_false_r. }
        assert (Hput : Object.put filtered key value = filtered).
        { unfold Object.put. apply has_false in Hfresh. rewrite Hfresh.
          rewrite Hp. done. }
        rewrite Hkp. rewrite Hput in H. by destruct (IH _ _ _ _ H Hrest) as [-> ->].
      * assert (Hkp : keeps host config (key, value) = true).
        { unfold keeps. cbn [fst]. rewrite Hx.
          by destruct (String.eqb_spec key "__proto__"). }
        rewrite Hkp. rewrite (put_last _ _ _ Hfresh Hp Hall) in H.
        destruct (IH _ _ _ _ H) as [-> ->].
        { rewrite <- app_assoc. unfold is_object, Object.keys. rewrite map_app.
          by split. }
        split; [| done]. by rewrite <- app_assoc.
Qed.

(** A pass over entries that are all kept and continue the object appends
    them. *)
Lemma filterVars_loop_all_kept entries : forall filtered excluded,
  is_object (filtered ++ entries) ->
  (forall k, k ∈ Object.keys entries -> kept host config k /\ k <> "__proto__") ->
  Config.filterVars_loop host config entries filtered excluded =
  Return (filtered ++ entries, excluded).
Proof.
  induction entries as [|[key value] rest IH]; intros filtered excluded Ho Hk.
  - by rewrite app_nil_r.
  - cbn [Config.filterVars_loop].
    destruct (Hk key) as [Hkept Hp]; [cbn; left |]. rewrite Hkept. cbn.
    destruct Ho as [Hnd Hs]. unfold Object.keys in Hnd, Hs.
    rewrite map_app in Hnd, Hs. cbn [map fst] in Hnd, Hs.
    assert (Hfresh : key ∉ map fst filtered).
    { apply NoDup_app in Hnd as (_ & H2 & _). intros Hin. apply (H2 key Hin). left. }
    assert (Hall : Forall (fun k => earlier k key) (map fst filtered)).
    { apply StronglySorted_app in Hs as (H1 & _ & _).
      apply Forall_forall. intros x Hx. apply H1; [done | left]. }
    rewrite (put_last _ _ _ Hfresh Hp Hall). rewrite IH.
    + by rewrite <- app_assoc.
    + rewrite <- app_assoc. unfold is_object, Object.keys. rewrite map_app. by split.
    + intros k Hin. apply Hk. cbn. by right.
Qed.

End FilterVars.

(** C9.  Filtering is idempotent: when a snapshot has been filtered, a
    second pass with the same configuration over the filtered snapshot
    returns the very same snapshot and excludes no name.  This holds for
    every configuration and on every engine: patterns of any shape, as long
    as the first pass raised no error. *)
Theorem filterVars_idempotent host config S F excluded :
  Config.filterVars host config S = Return (F, excluded) ->
  Config.filterVars host config F = Return (F, []).
Proof.
  unfold Config.filterVars, Object.entries. intros H.
  apply filterVars_loop_kept in H as [Ho Hk].
  - by apply (filterVars_loop_all_kept host config F [] []).
  - split; constructor.
  - intros k Hin. by apply elem_of_nil in Hin.
Qed.

Lemma filterVars_idempotent_witness :
  Config.filterVars example_host capitals_example [("a", "1"); ("zz", "4")] =
  Return ([("a", "1"); ("zz", "4")], []).
Proof.
  apply (filterVars_idempotent example_host capitals_example
           [("a", "1"); ("Ab", "2"); ("__proto__", "3"); ("zz", "4")]
           [("a", "1"); ("zz", "4")] ["Ab"]).
  reflexivity.
Defined.

(** ** Sets *)

Lemma Set_has_spec (s : list string) x : JS.Set_has s x = true <-> x ∈ s.
Proof.
  unfold JS.Set_has. rewrite existsb_exists. split.
  - intros (k & Hk & E). apply String.eqb_eq in E as ->. by apply list_elem_of_In.
  - intros H. exists x. split; [by apply list_elem_of_In | apply String.eqb_refl].
Qed.

Lemma Set_has_false (s : list string) x : JS.Set_has s x = false <-> x ∉ s.
Proof.
  destruct (JS.Set_has s x) eqn:E.
  - apply Set_has_spec in E. split; [discriminate | done].
  - split; [| done]. intros _ H. apply Set_has_spec in H. congruence.
Qed.


(** ** Protection is decided for every name *)

Lemma getSystemVars_safe p :
  forallb safe_pattern (Platform.getSystemVars p) = true.
Proof. destruct p; vm_compute; reflexivity. Qed.

Lemma safe_pattern_spec pattern :
  safe_pattern pattern = true ->
  JS.includes pattern "*" = false \/ star_dot_pattern pattern = true.
Proof.
  unfold safe_pattern. intros H. apply orb_prop in H as [H | H]; [left | by right].
  by apply negb_true_iff.
Qed.

Lemma isProtectedVar_loop_returns systemVars key :
  forallb safe_pattern systemVars = true ->
  returns (Platform.isProtectedVar_loop systemVars key).
Proof.
  induction systemVars as [|pattern rest IH]; [by exists false |].
  cbn [forallb]. intros H. apply andb_prop in H as [Hp Hrest].
  cbn [Platform.isProtectedVar_loop].
  destruct (patternTest_returns key pattern (safe_pattern_spec _ Hp)) as [[|] ->]; cbn.
  - by exists true.
  - by apply IH.
Qed.

Lemma isProtectedVar_returns p key : returns (Platform.isProtectedVar p key).
Proof. apply isProtectedVar_loop_returns, getSystemVars_safe. Qed.


(** ** Steps of a run *)

Lemma run_bind {A B} (m : M A) (k : A -> M B) w tr :
  (m ≫= k) w tr =
  match m w tr with
  | (Return v, tr') => k v w tr'
  | (Throw e, tr') => (Throw e, tr')
  | (NotModelled, tr') => (NotModelled, tr')
  end.
Proof. reflexivity. Qed.

Lemma run_lift_bind {A B} (c : completion A) (k : A -> M B) w tr :
  (lift c ≫= k) w tr =
  match c with
  | Return v => k v w tr
  | Throw e => (Throw e, tr)
  | NotModelled => (NotModelled, tr)
  end.
Proof. rewrite run_bind. unfold lift. by destruct c. Qed.


(** ** The listing of Vercel *)

Lemma listRemoteVars_Vercel target w tr :
  Provider.listRemoteVars Platform.Vercel target w tr =
  let tr1 := tr ++ [Invoke (listRemoteVars_call target)] in
  let r := execSync w tr1 (vc_env_ls target) in
  (Return (listed r), tr1 ++ [Exec (vc_env_ls target) r]).
Proof.
  unfold Provider.listRemoteVars, emit, try_catch, exec, mbind, M_bind, mret, M_ret.
  cbn zeta.
  by destruct (execSync w (tr ++ [Invoke (listRemoteVars_call target)])
                 (vc_env_ls target)).
Qed.

Example listing_of_a_table :
  fst (run (Provider.listRemoteVars Platform.Vercel "production") only_protected_remote)
  = Return ["VERCEL_URL"; "CI"].
Proof. reflexivity. Qed.




(** ** The module of [Syncer] does not load *)

(** The text of core/syncer.js declares [const protected] in the body of
    the class: [require] raises. *)
Lemma load_module_raises : Syncer.load_module = Throw SyntaxError.
Proof. reflexivity. Qed.

Lemma declared_protected :
  exists method names,
    (method, names) ∈ Syncer.declarations /\ "protected" ∈ names /\
    Strict.is_reserved "protected" = true.
Proof.
  exists "calculateChanges", ["toAdd"; "toUpdate"; "toRemove"; "protected"].
  split; [| split; [| reflexivity]].
  - unfold Syncer.declarations. do 7 right. left.
  - do 3 right. left.
Qed.

(** C1 (defect of the code).  As shipped, [calculateChanges] computes no
    change set: for every platform, local mapping and remote set the call
    ends in the [SyntaxError] of loading core/syncer.js, before any of the
    four sequences is built. *)
Theorem calculateChanges_raises_at_load p localVars remoteVars :
  Syncer.calculateChanges p localVars remoteVars = Throw SyntaxError.
Proof. unfold Syncer.calculateChanges. by rewrite load_module_raises. Qed.

(** C3 (defect of the code).  On the scenario of the claim, [L = {A: 1}]
    and [R = {A}], the call returns no change set, and so not the one with
    [toUpdate = [A]]: it raises the [SyntaxError] of loading the module. *)
Theorem calculateChanges_scenario_raises :
  Syncer.calculateChanges Platform.Vercel [("A", "1")] ["A"] = Throw SyntaxError /\
  Syncer.calculateChanges Platform.Vercel [("A", "1")] ["A"] <>
    Return {| toAdd := []; toUpdate := ["A"]; toRemove := []; protected := [] |}.
Proof. split; [reflexivity | discriminate]. Qed.

(** C6 (defect of the code).  As shipped, [applyChanges] issues nothing in
    any order: in every world and for every change set the call raises the
    [SyntaxError] of loading the module and leaves the trace as it was. *)
Theorem applyChanges_raises_at_load p changes localVars target w tr :
  Syncer.applyChanges p changes localVars target w tr = (Throw SyntaxError, tr).
Proof.
  unfold Syncer.applyChanges. rewrite run_lift_bind. by rewrite load_module_raises.
Qed.

(** C7 (defect of the code).  As shipped, the apply loop issues no mutation
    call at all, whatever the mutators would answer: for every change set
    and every world the run of [applyChanges] raises and its trace holds no
    mutation, so that a name of [toRemove], [toAdd] or [toUpdate] is never
    reached. *)
Theorem applyChanges_issues_nothing p changes localVars target w :
  fst (run (Syncer.applyChanges p changes localVars target) w) = Throw SyntaxError /\
  mutations (snd (run (Syncer.applyChanges p changes localVars target) w)) = [].
Proof. split; reflexivity. Qed.



(** * Beyond the claims: more of the sources *)

(** ** Prefix patterns *)

Section Prefix.

Import RegExp.

Lemma match_star_any_last s : match_terms [Star Any] s = no_line_terminator s.
Proof.
  induction s as [|c s IH]; [done |].
  rewrite match_terms_star_cons, IH. cbn [match_terms atom_matches].
  change (no_line_terminator (String c s))
    with (negb (is_line_terminator c) && no_line_terminator s).
  by rewrite orb_false_r.
Qed.

Lemma includes_app_star prefix : JS.includes (prefix +:+ "*") "*" = true.
Proof.
  induction prefix as [|c p IH]; [done |].
  rewrite append_cons. cbn [JS.includes]. by rewrite IH, orb_true_r.
Qed.

Lemma star_dot_app_star prefix :
  all_chars plain_char prefix = true -> star_dot_pattern (prefix +:+ "*") = true.
Proof.
  induction prefix as [|c p IH]; [done |].
  rewrite append_cons. cbn [all_chars]. intros H. apply andb_prop in H as [Hc Hp].
  change (star_dot_pattern (String c (p +:+ "*")))
    with ((Ascii.eqb c "*" || Ascii.eqb c "." || plain_char c)
          && star_dot_pattern (p +:+ "*")).
  by rewrite Hc, (IH Hp), orb_true_r.
Qed.

Lemma match_prefix prefix key :
  all_chars plain_char prefix = true ->
  match_terms (translate (prefix +:+ "*")) key = true <->
  exists rest, key = prefix +:+ rest /\ no_line_terminator rest = true.
Proof.
  revert key. induction prefix as [|c p IH]; intros key Hp.
  - rewrite append_nil_l. cbn [translate]. cbn. fold (match_terms [Star Any] key).
    rewrite match_star_any_last. split.
    + intros H. by exists key.
    + by intros (rest & -> & H).
  - cbn [all_chars] in Hp. apply andb_prop in Hp as [Hc Hp].
    destruct (plain_char_facts c Hc) as (_ & _ & Hd & _ & Hs).
    rewrite append_cons. cbn [translate]. rewrite Hs, Hd. cbn [match_terms].
    destruct key as [|d key].
    + split; [done |]. intros (rest & E & _). by rewrite append_cons in E.
    + cbn [atom_matches]. rewrite andb_true_iff, (IH key Hp). split.
      * intros [E (rest & -> & H)]. apply Ascii.eqb_eq in E as ->. by exists rest.
      * intros (rest & E & H). rewrite append_cons in E. injection E as -> ->.
        split; [apply Ascii.eqb_refl | by exists rest].
Qed.

End Prefix.

Lemma patternTest_prefix_iff key prefix :
  all_chars plain_char prefix = true ->
  exists b, patternTest key (prefix +:+ "*") = Return b /\
    (b = true <->
     exists rest, key = prefix +:+ rest /\ no_line_terminator rest = true).
Proof.
  intros Hp. exists (RegExp.test (translate (prefix +:+ "*")) key). split.
  - apply patternTest_star_dot; [apply includes_app_star | by apply star_dot_app_star].
  - by apply match_prefix.
Qed.

(** X1.  A pattern made of a prefix free of regular-expression syntax
    characters and a final star matches exactly the names that begin with
    the prefix and have no line terminator after it. *)
Theorem patternTest_prefix key prefix :
  all_chars plain_char prefix = true ->
  exists b, patternTest key (prefix +:+ "*") = Return b /\
    (b = true <->
     exists rest, key = prefix +:+ rest /\ no_line_terminator rest = true).
Proof. apply patternTest_prefix_iff. Qed.

Lemma patternTest_prefix_witness :
  exists b, patternTest "NEXT_PUBLIC_URL" ("NEXT_PUBLIC_" +:+ "*") = Return b /\
    (b = true <->
     exists rest, "NEXT_PUBLIC_URL" = "NEXT_PUBLIC_" +:+ rest /\
                  no_line_terminator rest = true).
Proof. apply patternTest_prefix. reflexivity. Defined.

(** ** Protection *)

Lemma isProtectedVar_loop_some systemVars key :
  Platform.isProtectedVar_loop systemVars key = JS.some (patternTest key) systemVars.
Proof.
  induction systemVars as [|pattern rest IH]; [done |].
  cbn [Platform.isProtectedVar_loop JS.some].
  destruct (patternTest key pattern) as [[|] | |]; cbn; done.
Qed.

Lemma some_found {A} (f : A -> completion bool) l x :
  (forall y, y ∈ l -> returns (f y)) -> x ∈ l -> f x = Return true ->
  JS.some f l = Return true.
Proof.
  intros Hret Hin Hx. destruct (some_returns f l Hret) as [[|] E]; [done |].
  rewrite (some_false f l E x Hin) in Hx. discriminate.
Qed.

Lemma systemVars_return p key pattern :
  pattern ∈ Platform.getSystemVars p -> returns (patternTest key pattern).
Proof.
  intros Hin. apply patternTest_returns, safe_pattern_spec.
  pose proof (getSystemVars_safe p) as H.
  rewrite forallb_forall in H. apply H. by apply list_elem_of_In.
Qed.

Lemma isProtectedVar_found p key pattern :
  pattern ∈ Platform.getSystemVars p -> patternTest key pattern = Return true ->
  Platform.isProtectedVar p key = Return true.
Proof.
  intros Hin Hm. unfold Platform.isProtectedVar. rewrite isProtectedVar_loop_some.
  apply (some_found _ _ pattern); [| done | done].
  intros y Hy. by apply (systemVars_return p).
Qed.

Lemma isProtectedVar_true_inv p key :
  Platform.isProtectedVar p key = Return true ->
  exists pattern, pattern ∈ Platform.getSystemVars p /\
                  patternTest key pattern = Return true.
Proof.
  unfold Platform.isProtectedVar. rewrite isProtectedVar_loop_some. apply some_true.
Qed.

Lemma base_in_vercel pattern :
  pattern ∈ Platform.getSystemVars Platform.Base ->
  pattern ∈ Platform.getSystemVars Platform.Vercel.
Proof.
  intros H. apply Set_has_spec.
  assert (Hall : forallb (JS.Set_has (Platform.getSystemVars Platform.Vercel))
                   (Platform.getSystemVars Platform.Base) = true) by (vm_compute; reflexivity).
  rewrite forallb_forall in Hall. apply Hall. by apply list_elem_of_In.
Qed.

Lemma vercel_prefix_protected rest :
  no_line_terminator rest = true ->
  Platform.isProtectedVar Platform.Vercel ("VERCEL" +:+ rest) = Return true.
Proof.
  intros Hrest. apply (isProtectedVar_found _ _ "VERCEL*").
  - apply Set_has_spec. vm_compute. reflexivity.
  - destruct (patternTest_prefix_iff ("VERCEL" +:+ rest) "VERCEL" eq_refl)
      as (b & Hb & Hiff).
    change ("VERCEL" +:+ "*") with "VERCEL*" in Hb. rewrite Hb. f_equal.
    apply Hiff. by exists rest.
Qed.

(** X2.  On Vercel every name that begins with [VERCEL] (and has no line
    terminator after it) is protected, and so is every name the base
    platform protects; the base platform protects exactly its seven
    names. *)
Theorem isProtectedVar_vercel_extends_base :
  (forall rest, no_line_terminator rest = true ->
     Platform.isProtectedVar Platform.Vercel ("VERCEL" +:+ rest) = Return true) /\
  (forall key, Platform.isProtectedVar Platform.Base key = Return true ->
     Platform.isProtectedVar Platform.Vercel key = Return true) /\
  (forall key, Platform.isProtectedVar Platform.Base key = Return true <->
     key ∈ Platform.base_system_vars).
Proof.
  split; [exact vercel_prefix_protected |]. split.
  - intros key H. apply isProtectedVar_true_inv in H as (pattern & Hin & Hm).
    apply (isProtectedVar_found _ _ pattern); [by apply base_in_vercel | done].
  - intros key. split.
    + intros H. apply isProtectedVar_true_inv in H as (pattern & Hin & Hm).
      change (Platform.getSystemVars Platform.Base) with Platform.base_system_vars in Hin.
      assert (E : patternTest key pattern = Return (String.eqb key pattern)).
      { repeat (apply elem_of_cons in Hin as [-> | Hin]; [done |]).
        by apply elem_of_nil in Hin. }
      rewrite E in Hm. injection Hm as Hm. apply String.eqb_eq in Hm. by subst.
    + intros Hin. apply (isProtectedVar_found _ _ key); [done |].
      assert (E : patternTest key key = Return (String.eqb key key)).
      { repeat (apply elem_of_cons in Hin as [-> | Hin]; [done |]).
        by apply elem_of_nil in Hin. }
      by rewrite E, String.eqb_refl.
Qed.

Lemma isProtectedVar_vercel_extends_base_witness :
  Platform.isProtectedVar Platform.Vercel ("VERCEL" +:+ "_ANALYTICS_ID") = Return true /\
  Platform.isProtectedVar Platform.Vercel "NODE_ENV" = Return true.
Proof.
  destruct isProtectedVar_vercel_extends_base as (Hprefix & Hbase & _). split.
  - apply Hprefix. reflexivity.
  - apply Hbase. reflexivity.
Defined.


(** X3.  With the default configuration, every name the filter excludes is
    a name Vercel protects: what is left out of a sync by default is never
    a candidate for removal. *)
Theorem default_exclusions_are_protected host key :
  Config.shouldExclude host Config.getDefaults key = Return true ->
  Platform.isProtectedVar Platform.Vercel key = Return true.
Proof.
  rewrite shouldExclude_no_include by done. intros H.
  apply some_true in H as (pattern & Hin & Hm).
  cbn [Config.exclude Config.getDefaults] in Hin.
  assert (Hsafe : JS.includes pattern "*" = false \/ star_dot_pattern pattern = true).
  { pose proof Hin as Hin'.
    repeat (apply elem_of_cons in Hin' as [-> | Hin']; [right; reflexivity |]).
    by apply elem_of_nil in Hin'. }
  rewrite (patternTest_in_safe _ _ _ Hsafe) in Hm. clear Hsafe.
  apply elem_of_cons in Hin as [-> | Hin].
  - destruct (patternTest_prefix_iff key "VERCEL_" eq_refl) as (b & Hb & Hiff).
    change ("VERCEL_" +:+ "*") with "VERCEL_*" in Hb.
    rewrite Hm in Hb. injection Hb as <-.
    destruct (proj1 Hiff eq_refl) as (rest & -> & Hrest).
    by apply (vercel_prefix_protected (String "_" rest)).
  - assert (E : patternTest key pattern = Return (String.eqb key pattern)).
    { repeat (apply elem_of_cons in Hin as [-> | Hin]; [done |]).
      by apply elem_of_nil in Hin. }
    rewrite E in Hm. injection Hm as Hm. apply String.eqb_eq in Hm as ->.
    repeat (apply elem_of_cons in Hin as [-> | Hin]; [reflexivity |]).
    by apply elem_of_nil in Hin.
Qed.

Lemma default_exclusions_are_protected_witness :
  Platform.isProtectedVar Platform.Vercel "VERCEL_TOKEN" = Return true.
Proof. apply (default_exclusions_are_protected example_host). reflexivity. Defined.

(** ** The filter as a partition *)

(** X4.  [filterVars] partitions the snapshot: the filtered object is the
    entries whose name is neither excluded nor [__proto__], in their order
    and with their values, and the excluded names are the names
    [shouldExclude] excludes, in their order.  A name [__proto__] that is
    not excluded is in neither: the assignment that should keep it creates
    no property. *)
Theorem filterVars_partition host config S F excluded :
  Config.filterVars host config S = Return (F, excluded) ->
  is_object S ->
  F = List.filter (keeps host config) S /\
  excluded = List.filter (is_excluded host config) (Object.keys S).
Proof.
  unfold Config.filterVars, Object.entries. intros H Ho.
  by apply (filterVars_loop_closed_form host config S [] [] F excluded H).
Qed.

Lemma filterVars_partition_witness :
  [("2", "x"); ("10", "y"); ("a", "1"); ("zz", "4")] =
    List.filter (keeps example_host capitals_example)
      [("2", "x"); ("10", "y"); ("a", "1"); ("Ab", "2"); ("__proto__", "3"); ("zz", "4")] /\
  ["Ab"] =
    List.filter (is_excluded example_host capitals_example)
      (Object.keys
         [("2", "x"); ("10", "y"); ("a", "1"); ("Ab", "2"); ("__proto__", "3"); ("zz", "4")]).
Proof.
  apply (filterVars_partition example_host capitals_example
           [("2", "x"); ("10", "y"); ("a", "1"); ("Ab", "2"); ("__proto__", "3"); ("zz", "4")]).
  - reflexivity.
  - split; apply (bool_decide_unpack _); vm_compute; exact I.
Defined.

(** ** The confirmation prompt *)

Lemma lower_char_y c :
  Ascii.eqb (JS.lower_char c) "y" = Ascii.eqb c "y" || Ascii.eqb c "Y".
Proof. destruct c as [[] [] [] [] [] [] [] []]; reflexivity. Qed.

Lemma startsWith_nil s : JS.startsWith s "" = true.
Proof. by destruct s. Qed.

Lemma startsWith_lower_y answer :
  JS.startsWith (JS.toLowerCase answer) "y" = affirmative answer.
Proof.
  destruct answer as [|c answer]; [done |].
  cbn [JS.toLowerCase JS.startsWith affirmative].
  by rewrite startsWith_nil, andb_true_r, Ascii.eqb_sym, lower_char_y.
Qed.

Lemma confirm_run (message : string) (defaultValue : bool) (w : world) (tr : list event) :
  let query := message +:+ " (" +:+ (if defaultValue then "Y/n" else "y/N") +:+ ") " in
  let answer := readline w tr query in
  Prompts.confirm message defaultValue w tr =
  (Return (if String.eqb answer "" then defaultValue else affirmative answer),
   tr ++ [Question query answer]).
Proof.
  cbv zeta. unfold Prompts.confirm, Prompts.question. rewrite run_bind.
  destruct defaultValue;
    match goal with |- context [readline w tr ?q] =>
      destruct (String.eqb (readline w tr q) "") eqn:E; [done |] end;
    unfold mret, M_ret; by rewrite startsWith_lower_y.
Qed.

(** X7.  [confirm] asks one question, the message followed by [(Y/n)] or
    [(y/N)] after the default, and answers the default on an empty line and
    otherwise whether the line begins with [y] or [Y]. *)
Theorem confirm_reads_yes (message : string) (defaultValue : bool) (w : world)
    (tr : list event) :
  let query := message +:+ " (" +:+ (if defaultValue then "Y/n" else "y/N") +:+ ") " in
  let answer := readline w tr query in
  Prompts.confirm message defaultValue w tr =
  (Return (if String.eqb answer "" then defaultValue else affirmative answer),
   tr ++ [Question query answer]).
Proof. apply confirm_run. Qed.

Lemma append_assoc (a b c : string) : (a +:+ b) +:+ c = a +:+ (b +:+ c).
Proof.
  induction a as [|x a IH]; [done |]. by rewrite !append_cons, IH.
Qed.

Lemma confirmChanges_run (cs : changes) (w : world) (tr : list event) :
  total cs <> 0 ->
  let query := String "010" "Do you want to proceed with these " +:+ pretty (total cs)
               +:+ " changes?" +:+ " (y/N) " in
  let answer := readline w tr query in
  Prompts.confirmChanges cs w tr =
  (Return (affirmative answer), tr ++ [Question query answer]).
Proof.
  intros Hnz. cbv zeta. unfold Prompts.confirmChanges. fold (total cs).
  apply Nat.eqb_neq in Hnz. rewrite Hnz. rewrite confirm_run. cbv zeta.
  assert (Hq : (String "010" "Do you want to proceed with these " +:+ pretty (total cs)
                +:+ " changes?") +:+ " (" +:+ "y/N" +:+ ") " =
               String "010" "Do you want to proceed with these " +:+ pretty (total cs)
                +:+ " changes?" +:+ " (y/N) ").
  { by rewrite !append_assoc. }
  rewrite Hq.
  match goal with |- context [String.eqb ?a ""] =>
    destruct (String.eqb_spec a "") as [E | E]; [by rewrite E | done] end.
Qed.

(** X8.  When there is something to apply, [confirmChanges] asks exactly
    one question, which names the number of changes, and returns true iff
    the line typed begins with [y] or [Y]; an empty line is a no. *)
Theorem confirmChanges_asks_once (cs : changes) (w : world) (tr : list event) :
  total cs <> 0 ->
  let query := String "010" "Do you want to proceed with these " +:+ pretty (total cs)
               +:+ " changes?" +:+ " (y/N) " in
  let answer := readline w tr query in
  Prompts.confirmChanges cs w tr =
  (Return (affirmative answer), tr ++ [Question query answer]).
Proof. apply confirmChanges_run. Qed.

Lemma confirmChanges_asks_once_witness :
  Prompts.confirmChanges sample_changes unreachable_provider [] =
  (Return true,
   [Question (String "010" "Do you want to proceed with these 3 changes? (y/N) ") "y"]).
Proof.
  apply (confirmChanges_asks_once sample_changes unreachable_provider []).
  vm_compute. lia.
Defined.

(** ** The listing of the remote names *)

Lemma Set_add_NoDup s x : NoDup s -> NoDup (JS.Set_add s x).
Proof.
  intros H. unfold JS.Set_add. destruct (JS.Set_has s x) eqn:E; [done |].
  apply Set_has_false in E. apply NoDup_app. repeat split; [done | | apply NoDup_singleton].
  intros y Hy Hx. by apply list_elem_of_singleton in Hx as ->.
Qed.

Lemma elem_of_Set_add s x y : y ∈ JS.Set_add s x -> y ∈ s \/ y = x.
Proof.
  unfold JS.Set_add. destruct (JS.Set_has s x); [by left |].
  rewrite elem_of_app, list_elem_of_singleton. tauto.
Qed.

Lemma first_field_no_whitespace s :
  all_chars (fun c => negb (JS.is_whitespace c)) (JS.first_field s) = true.
Proof.
  induction s as [|c s IH]; [done |].
  cbn [JS.first_field]. destruct (JS.is_whitespace c) eqn:E; [done |].
  cbn [all_chars]. by rewrite E, IH.
Qed.

Lemma startsWith_first_field s : forall p,
  JS.startsWith (JS.first_field s) p = true -> JS.startsWith s p = true.
Proof.
  induction s as [|c s IH]; intros p; [done |].
  cbn [JS.first_field]. destruct (JS.is_whitespace c).
  - destruct p; [done | discriminate].
  - destruct p as [|a p]; [done |]. cbn [JS.startsWith].
    intros H. apply andb_prop in H as [-> H]. by rewrite (IH p H).
Qed.

Lemma collect_line_listed envVars line :
  NoDup envVars -> (forall n, n ∈ envVars -> listed_name n) ->
  NoDup (Provider.collect_line envVars line) /\
  (forall n, n ∈ Provider.collect_line envVars line -> listed_name n).
Proof.
  intros Hnd Hall. unfold Provider.collect_line.
  destruct (negb (String.eqb (JS.trim line) "")) eqn:E1; [| done].
  destruct (negb (JS.startsWith (JS.trim line) "name")) eqn:E2; [| done].
  destruct (negb (JS.startsWith (JS.trim line) "---")) eqn:E3; [| done].
  cbn [andb].
  destruct (negb (String.eqb (JS.first_field (JS.trim line)) "")) eqn:E4; [| done].
  destruct (negb (JS.includes (JS.first_field (JS.trim line)) "=")) eqn:E5; [| done].
  cbn [andb]. split; [by apply Set_add_NoDup |].
  intros n Hn. apply elem_of_Set_add in Hn as [Hn | ->]; [by apply Hall |].
  apply negb_true_iff in E2, E3, E4, E5. repeat split.
  - by apply String.eqb_neq.
  - done.
  - apply first_field_no_whitespace.
  - destruct (JS.startsWith (JS.first_field (JS.trim line)) "name") eqn:F; [| done].
    apply startsWith_first_field in F. congruence.
  - destruct (JS.startsWith (JS.first_field (JS.trim line)) "---") eqn:F; [| done].
    apply startsWith_first_field in F. congruence.
Qed.

Lemma fold_collect_listed lines : forall envVars,
  NoDup envVars -> (forall n, n ∈ envVars -> listed_name n) ->
  NoDup (fold_left Provider.collect_line lines envVars) /\
  (forall n, n ∈ fold_left Provider.collect_line lines envVars -> listed_name n).
Proof.
  induction lines as [|line lines IH]; intros envVars Hnd Hall; [done |].
  cbn [fold_left]. destruct (collect_line_listed envVars line Hnd Hall).
  by apply IH.
Qed.

Lemma parse_listing_listed output :
  NoDup (Provider.parse_listing output) /\
  (forall n, n ∈ Provider.parse_listing output -> listed_name n).
Proof.
  unfold Provider.parse_listing. apply fold_collect_listed; [constructor |].
  intros n Hn. by apply elem_of_nil in Hn.
Qed.

Lemma listed_listed r :
  NoDup (listed r) /\ (forall n, n ∈ listed r -> listed_name n).
Proof.
  destruct r; [apply parse_listing_listed |].
  split; [constructor |]. intros n Hn. by apply elem_of_nil in Hn.
Qed.

(** X9.  [listRemoteVars] of Vercel never raises, and the names it returns
    are distinct, not empty, free of white space and of [=], and none of
    them begins with [name] or with [---]: a remote variable whose name
    begins with [name] is never listed. *)
Theorem listRemoteVars_names target w tr :
  exists names,
    fst (Provider.listRemoteVars Platform.Vercel target w tr) = Return names /\
    NoDup names /\ (forall n, n ∈ names -> listed_name n).
Proof.
  rewrite listRemoteVars_Vercel. cbv zeta. cbn [fst].
  eexists. split; [done |]. apply listed_listed.
Qed.

Example listing_hides_names_in_name :
  Provider.parse_listing
    "name       value      environments
names_db   Encrypted  Production
API_KEY    Encrypted  Production
" = ["API_KEY"].
Proof. reflexivity. Qed.

Lemma listRemoteVars_names_witness : listed_name "CI".
Proof.
  destruct (listRemoteVars_names "production" only_protected_remote [])
    as (names & E & _ & H).
  vm_compute in E. injection E as <-. apply H. repeat constructor.
Defined.

(** ** A table is listed in full *)

Lemma split_lines_line line s :
  one_line line = true ->
  JS.split_lines (line +:+ String "010" s) = line :: JS.split_lines s.
Proof.
  induction line as [|c line IH]; [done |].
  unfold one_line. cbn [all_chars]. intros H. apply andb_prop in H as [Hc Hl].
  rewrite append_cons. cbn [JS.split_lines].
  apply negb_true_iff in Hc. rewrite Hc. by rewrite (IH Hl).
Qed.

Lemma split_lines_text lines :
  Forall (fun line => one_line line = true) lines ->
  JS.split_lines (lines_text lines) = lines ++ [""].
Proof.
  induction 1 as [|line lines Hl _ IH]; [done |].
  cbn [lines_text]. by rewrite (split_lines_line _ _ Hl), IH.
Qed.

Lemma one_line_app a b :
  one_line a = true -> one_line b = true -> one_line (a +:+ b) = true.
Proof.
  unfold one_line. induction a as [|c a IH]; [done |].
  rewrite append_cons. cbn [all_chars]. intros H Hb.
  apply andb_prop in H as [-> H]. by apply IH.
Qed.

Lemma no_whitespace_one_line n :
  all_chars (fun c => negb (JS.is_whitespace c)) n = true -> one_line n = true.
Proof.
  unfold one_line. induction n as [|c n IH]; [done |].
  cbn [all_chars]. intros H. apply andb_prop in H as [Hc H].
  rewrite (IH H), andb_true_r. destruct (Ascii.eqb_spec c "010") as [-> |]; [| done].
  discriminate.
Qed.

Lemma trimStart_indent indent s :
  all_chars JS.is_whitespace indent = true ->
  JS.trimStart (indent +:+ s) = JS.trimStart s.
Proof.
  induction indent as [|c indent IH]; [done |].
  cbn [all_chars]. intros H. apply andb_prop in H as [Hc H].
  rewrite append_cons. cbn [JS.trimStart]. rewrite Hc. by apply IH.
Qed.

Lemma trimStart_name n s :
  n <> "" -> all_chars (fun c => negb (JS.is_whitespace c)) n = true ->
  JS.trimStart (n +:+ s) = n +:+ s.
Proof.
  destruct n as [|c n]; [done |]. intros _. cbn [all_chars]. intros H.
  apply andb_prop in H as [Hc _]. apply negb_true_iff in Hc.
  rewrite append_cons. cbn [JS.trimStart]. by rewrite Hc.
Qed.

Lemma trimEnd_name n s :
  all_chars (fun c => negb (JS.is_whitespace c)) n = true ->
  JS.trimEnd (n +:+ s) = n +:+ JS.trimEnd s.
Proof.
  induction n as [|c n IH]; [done |].
  cbn [all_chars]. intros H. apply andb_prop in H as [Hc H].
  apply negb_true_iff in Hc.
  rewrite !append_cons. cbn [JS.trimEnd]. rewrite Hc. cbn [andb]. by rewrite IH.
Qed.

(** What is left of the columns once the end of the line is trimmed still
    begins with white space, if anything is left. *)
Lemma trimEnd_columns s :
  columns_text s = true ->
  match JS.trimEnd s with
  | EmptyString => True
  | String c _ => JS.is_whitespace c = true
  end.
Proof.
  destruct s as [|c s]; [done |].
  unfold columns_text. intros H. apply andb_prop in H as [_ Hc].
  cbn [JS.trimEnd]. rewrite Hc. cbn [andb].
  by destruct (String.eqb (JS.trimEnd s) "").
Qed.

Lemma first_field_name n u :
  all_chars (fun c => negb (JS.is_whitespace c)) n = true ->
  match u with
  | EmptyString => True
  | String c _ => JS.is_whitespace c = true
  end ->
  JS.first_field (n +:+ u) = n.
Proof.
  intros Hn Hu. induction n as [|c n IH].
  - rewrite append_nil_l. destruct u as [|c u]; [done |]. cbn [JS.first_field].
    by rewrite Hu.
  - cbn [all_chars] in Hn. apply andb_prop in Hn as [Hc Hn].
    apply negb_true_iff in Hc.
    rewrite append_cons. cbn [JS.first_field]. rewrite Hc. by rewrite IH.
Qed.

Lemma startsWith_in_first_field s : forall p,
  all_chars (fun c => negb (JS.is_whitespace c)) p = true ->
  JS.startsWith s p = true -> JS.startsWith (JS.first_field s) p = true.
Proof.
  induction s as [|c s IH]; intros p Hp H.
  - by destruct p.
  - destruct p as [|a p]; [by destruct (JS.first_field (String c s)) |].
    cbn [JS.startsWith] in H. apply andb_prop in H as [Ha H].
    apply Ascii.eqb_eq in Ha as <-.
    cbn [all_chars] in Hp. apply andb_prop in Hp as [Hc Hp].
    apply negb_true_iff in Hc.
    cbn [JS.first_field]. rewrite Hc. cbn [JS.startsWith].
    rewrite Ascii.eqb_refl. by apply IH.
Qed.

Section Rows.

Variable r : row.
Hypothesis Hrow : well_formed_row r.

Lemma trim_row :
  JS.trim (row_text r) = row_name r +:+ JS.trimEnd (row_columns r).
Proof.
  destruct Hrow as (Hi & _ & (Hne & _ & Hws & _) & _).
  unfold JS.trim, row_text.
  rewrite (trimStart_indent _ _ Hi), (trimStart_name _ _ Hne Hws).
  by apply trimEnd_name.
Qed.

Lemma first_field_row : JS.first_field (JS.trim (row_text r)) = row_name r.
Proof.
  rewrite trim_row. destruct Hrow as (_ & _ & (_ & _ & Hws & _) & Hc).
  apply first_field_name; [done | by apply trimEnd_columns].
Qed.

Lemma one_line_row : one_line (row_text r) = true.
Proof.
  destruct Hrow as (_ & Hi & (_ & _ & Hws & _) & Hc).
  unfold columns_text in Hc. apply andb_prop in Hc as [Hc _].
  unfold row_text. apply one_line_app; [done |].
  apply one_line_app; [by apply no_whitespace_one_line | done].
Qed.

Lemma trim_row_not_empty : String.eqb (JS.trim (row_text r)) "" = false.
Proof.
  rewrite trim_row. destruct Hrow as (_ & _ & (Hne & _) & _).
  destruct (row_name r); [done |]. by rewrite append_cons.
Qed.

(** A row adds its name to the set. *)
Lemma collect_line_row envVars :
  Provider.collect_line envVars (row_text r) = JS.Set_add envVars (row_name r).
Proof.
  pose proof first_field_row as Hf.
  destruct Hrow as (_ & _ & (Hne & Heq & _ & Hname & Hdash) & _).
  unfold Provider.collect_line. rewrite trim_row_not_empty. cbn [negb andb].
  destruct (JS.startsWith (JS.trim (row_text r)) "name") eqn:E1.
  { apply startsWith_in_first_field in E1; [| done]. rewrite Hf in E1. congruence. }
  destruct (JS.startsWith (JS.trim (row_text r)) "---") eqn:E2.
  { apply startsWith_in_first_field in E2; [| done]. rewrite Hf in E2. congruence. }
  cbn [negb andb]. rewrite Hf, Heq.
  apply String.eqb_neq in Hne. by rewrite Hne.
Qed.

End Rows.

Lemma collect_line_header envVars header :
  JS.startsWith (JS.trim header) "name" = true ->
  Provider.collect_line envVars header = envVars.
Proof.
  intros H. unfold Provider.collect_line. rewrite H. cbn [negb].
  by rewrite andb_false_r.
Qed.

Lemma fold_collect_rows rows : forall envVars,
  Forall well_formed_row rows ->
  fold_left Provider.collect_line (map row_text rows) envVars =
  fold_left JS.Set_add (map row_name rows) envVars.
Proof.
  induction rows as [|r rows IH]; intros envVars H; [done |].
  apply Forall_cons in H as [Hr H]. cbn [map fold_left].
  rewrite (collect_line_row r Hr). by apply IH.
Qed.

Lemma filter_rows rows :
  Forall well_formed_row rows ->
  List.filter (fun line => negb (String.eqb (JS.trim line) ""))
    (map row_text rows ++ [""]) = map row_text rows.
Proof.
  induction 1 as [|r rows Hr _ IH]; [done |].
  cbn [map app List.filter]. rewrite (trim_row_not_empty r Hr). cbn [negb].
  by rewrite IH.
Qed.

(** X19.  A table is listed in full: when the listing command prints a
    header line that begins, after its white space, with [name], and then
    rows, each made of white space, a name and the other columns after
    white space, [listRemoteVars] returns the set of the names of the rows,
    in the order of the rows, as long as every name is of the kind a listing
    can hold (not empty, free of white space and of [=], not beginning with
    [name] or [---]). *)
Theorem listing_is_complete target w tr header rows :
  one_line header = true ->
  JS.startsWith (JS.trim header) "name" = true ->
  Forall well_formed_row rows ->
  execSync w (tr ++ [Invoke (listRemoteVars_call target)]) (vc_env_ls target)
    = Exited (lines_text (header :: map row_text rows)) ->
  fst (Provider.listRemoteVars Platform.Vercel target w tr)
    = Return (JS.Set_from (map row_name rows)).
Proof.
  intros Hline Hheader Hrows E.
  rewrite listRemoteVars_Vercel. cbv zeta. rewrite E. cbn [fst listed]. f_equal.
  unfold Provider.parse_listing. rewrite split_lines_text.
  - cbn [app List.filter].
    assert (Hne : String.eqb (JS.trim header) "" = false).
    { destruct (JS.trim header); [discriminate | done]. }
    rewrite Hne. cbn [negb]. rewrite (filter_rows _ Hrows). cbn [fold_left].
    rewrite (collect_line_header _ _ Hheader). by apply fold_collect_rows.
  - apply Forall_cons. split; [done |]. apply Forall_fmap.
    eapply Forall_impl; [exact Hrows |]. intros r Hr. by apply one_line_row.
Qed.

Lemma listing_is_complete_witness :
  fst (Provider.listRemoteVars Platform.Vercel "production" table_remote [])
    = Return ["API_KEY"; "DB_URL"].
Proof.
  apply (listing_is_complete "production" table_remote []
           "  name      value       environments" sample_rows);
    try reflexivity.
  repeat constructor; cbn; discriminate.
Defined.

(** ** The mutators of Vercel *)

(** X10.  [setRemoteVar] of Vercel first runs the removal command, whose
    outcome it ignores, then the add command, and returns whether the add
    command succeeded; [removeRemoteVar] runs the removal command and
    returns whether it succeeded.  Neither raises. *)
Theorem mutators_report_the_last_command :
  (forall key value target w tr,
     let tr1 := tr ++ [Invoke (setRemoteVar_call key value target)] in
     let r1 := execSync w tr1 (vc_env_rm key target) in
     let tr2 := tr1 ++ [Exec (vc_env_rm key target) r1] in
     let r2 := execSync w tr2 (vc_env_add (JS.to_string value) key target) in
     Provider.setRemoteVar Platform.Vercel key value target w tr =
     (Return (exited r2),
      tr2 ++ [Exec (vc_env_add (JS.to_string value) key target) r2])) /\
  (forall key target w tr,
     let tr1 := tr ++ [Invoke (removeRemoteVar_call key target)] in
     let r := execSync w tr1 (vc_env_rm key target) in
     Provider.removeRemoteVar Platform.Vercel key target w tr =
     (Return (exited r), tr1 ++ [Exec (vc_env_rm key target) r])).
Proof.
  split.
  - intros key value target w tr. cbv zeta.
    unfold Provider.setRemoteVar, emit, try_catch, exec, mbind, M_bind, mret, M_ret.
    destruct (execSync w (tr ++ [Invoke (setRemoteVar_call key value target)])
                (vc_env_rm key target)) as [out1 | msg1];
      match goal with |- context [execSync w ?t (vc_env_add ?v key target)] =>
        destruct (execSync w t (vc_env_add v key target)) as [out2 | msg2] end;
      reflexivity.
  - intros key target w tr. cbv zeta.
    unfold Provider.removeRemoteVar, emit, try_catch, exec, mbind, M_bind, mret, M_ret.
    by destruct (execSync w (tr ++ [Invoke (removeRemoteVar_call key target)])
                   (vc_env_rm key target)).
Qed.


(** ** The configuration over its defaults *)

Section Merge.

Import Config.

Lemma lookup_put_eq envs name e :
  lookup_environment (put_environment envs name e) name = Some e.
Proof.
  induction envs as [|[n e'] envs IH]; cbn [put_environment lookup_environment].
  - by rewrite String.eqb_refl.
  - destruct (String.eqb_spec n name) as [-> | Hne]; cbn [lookup_environment].
    + by rewrite String.eqb_refl.
    + by destruct (String.eqb_spec n name).
Qed.

Lemma lookup_put_ne envs name e name' :
  name' <> name ->
  lookup_environment (put_environment envs name e) name' = lookup_environment envs name'.
Proof.
  intros Hne. induction envs as [|[n e'] envs IH];
    cbn [put_environment lookup_environment].
  - by destruct (String.eqb_spec name name').
  - destruct (String.eqb_spec n name) as [-> | Hn]; cbn [lookup_environment].
    + by destruct (String.eqb_spec name name').
    + by rewrite IH.
Qed.

Lemma lookup_absent envs name :
  name ∉ map fst envs -> lookup_environment envs name = None.
Proof.
  induction envs as [|[n e] envs IH]; [done |].
  cbn [map fst lookup_environment]. intros H. apply not_elem_of_cons in H as [Hne H].
  destruct (String.eqb_spec n name); [congruence | by apply IH].
Qed.

Lemma lookup_spread extra : forall base name,
  NoDup (map fst extra) ->
  lookup_environment (spread_environments base extra) name =
  match lookup_environment extra name with
  | Some e => Some e
  | None => lookup_environment base name
  end.
Proof.
  induction extra as [|[n e] extra IH]; intros base name Hnd; [done |].
  cbn [map fst] in Hnd. apply NoDup_cons in Hnd as [Hn Hnd].
  unfold spread_environments in *. cbn [fold_left lookup_environment].
  rewrite (IH _ _ Hnd). destruct (String.eqb_spec n name) as [-> | Hne].
  - by rewrite (lookup_absent _ _ Hn), lookup_put_eq.
  - rewrite lookup_put_ne by done. done.
Qed.

Lemma lookup_spread_kept extra : forall base name,
  is_Some (lookup_environment base name) ->
  is_Some (lookup_environment (spread_environments base extra) name).
Proof.
  induction extra as [|[n e] extra IH]; intros base name H; [done |].
  unfold spread_environments in *. cbn [fold_left]. apply IH.
  destruct (String.eqb_spec name n) as [-> | Hne].
  - by rewrite lookup_put_eq.
  - by rewrite lookup_put_ne.
Qed.

End Merge.

(** X16.  [mergeWithDefaults] layers the file over the defaults: an
    environment the file gives is the one found, any other environment is
    looked up in the defaults; an exclude or include list of the file
    replaces the default list whole, it is not added to it. *)
Theorem mergeWithDefaults_layers userConfig name :
  NoDup (map fst (default [] (Config.user_environments userConfig))) ->
  Config.lookup_environment
    (Config.environments (Config.mergeWithDefaults userConfig)) name =
  match Config.lookup_environment
          (default [] (Config.user_environments userConfig)) name with
  | Some e => Some e
  | None => Config.lookup_environment (Config.environments Config.getDefaults) name
  end /\
  Config.exclude (Config.mergeWithDefaults userConfig) =
    default (Config.exclude Config.getDefaults) (Config.user_exclude userConfig) /\
  Config.include (Config.mergeWithDefaults userConfig) =
    default [] (Config.user_include userConfig).
Proof.
  intros Hnd. split; [| done].
  unfold Config.mergeWithDefaults. cbn [Config.environments]. by apply lookup_spread.
Qed.

Lemma mergeWithDefaults_layers_witness :
  Config.lookup_environment
    (Config.environments
       (Config.mergeWithDefaults
          {| Config.user_platform := None;
             Config.user_environments :=
               Some [("preview", {| Config.file := ".env.preview";
                                   Config.target := "preview" |})];
             Config.user_exclude := Some ["SECRET_*"];
             Config.user_include := None |}))
    "preview" =
  Some {| Config.file := ".env.preview"; Config.target := "preview" |}.
Proof.
  refine (proj1 (mergeWithDefaults_layers
           {| Config.user_platform := None;
              Config.user_environments :=
                Some [("preview", {| Config.file := ".env.preview";
                                    Config.target := "preview" |})];
              Config.user_exclude := Some ["SECRET_*"];
              Config.user_include := None |} "preview" _)).
  apply NoDup_singleton.
Defined.

(** X17.  Whether the configuration file is missing, fails to load, or
    loads with environments of its own (each a [{file, target}] object), the
    configuration [load] returns knows every environment the platform
    accepts: for such an environment [getFilePath] and [getTarget] return
    and never raise the unknown-environment error. *)
Theorem load_knows_valid_environments fileExists required p environment :
  Platform.validateEnvironment p environment = true ->
  returns (Config.getFilePath (Config.load fileExists required) environment) /\
  returns (Config.getTarget (Config.load fileExists required) environment).
Proof.
  intros Hv.
  assert (Hdef : is_Some (Config.lookup_environment
                            (Config.environments Config.getDefaults) environment)).
  { unfold Platform.validateEnvironment in Hv. cbn in Hv.
    repeat (apply orb_prop in Hv as [Hv | Hv];
            [apply String.eqb_eq in Hv as ->; by eexists |]).
    discriminate. }
  assert (H : is_Some (Config.lookup_environment
                         (Config.environments (Config.load fileExists required))
                         environment)).
  { unfold Config.load. destruct fileExists; [| done].
    destruct required as [userConfig |]; [| done].
    by apply lookup_spread_kept. }
  destruct H as [e He].
  unfold Config.getFilePath, Config.getTarget, Config.getEnvironment.
  rewrite He. split; by eexists.
Qed.

Lemma load_knows_valid_environments_witness :
  let required :=
    Some {| Config.user_platform := None;
            Config.user_environments :=
              Some [("staging", {| Config.file := ".env.staging";
                                   Config.target := "preview" |})];
            Config.user_exclude := None;
            Config.user_include := None |} in
  returns (Config.getFilePath (Config.load true required) "production") /\
  returns (Config.getTarget (Config.load true required) "production").
Proof.
  intros required.
  apply (load_knows_valid_environments true required Platform.Vercel "production").
  reflexivity.
Defined.

(** ** The operations of [Syncer], as shipped *)

